(** * The fake Telegram Bot API server (telegram/fake.cpp)

    A shallow embedding of the scripted test cases, the request matcher and
    the request handler of [telegram/fake.cpp], followed by the properties
    of the specification proved (or refuted) on that embedding.

    Conventions.
    - A C++ member function that mutates the test case or the response, or
      that may throw, is a computation in the monad [M]: a function from the
      [World] (the test case and the response under construction) to a
      [result] and the world left behind.  The world is kept when an
      exception is thrown, as the mutation of [Fails] before the [throw] in
      [TestCase::Fail] must be observable by the [catch].
    - [int] is a 32-bit two's complement integer held in [Z]; [size_t] is a
      64-bit unsigned integer held in [Z].
    - A call into a library ends in a [fallible]: a value, or the text of
      the [what()] of a [std::exception].
    - [std::vector] is [list]; [Poco::JSON::Object] is a [gmap].
    - Poco and the fixtures of [fake_data.h] are not part of the file; the
      part of them that the code relies on is modelled in the first
      sections. *)

From Stdlib Require Import ZArith Ascii String.
From stdpp Require Import base decidable option numbers list list_numbers sorting strings gmap.

Local Open Scope Z_scope.
Local Open Scope string_scope.

(** ** Machine integers *)

Definition INT_MAX : Z := 2147483647.
Definition INT_MIN : Z := -2147483648.

(** The value of an [int] expression whose mathematical value is [z]
    (two's complement wrap-around). *)
Definition int_wrap (z : Z) : Z := (z + 2 ^ 31) `mod` 2 ^ 32 - 2 ^ 31.

(** Conversion of an integer to [size_t]. *)
Definition to_size_t (z : Z) : Z := z `mod` 2 ^ 64.

(** ** Exceptions and the monad of member functions *)

(** [class CheckFailedException : public std::exception {}] and every other
    [std::exception], kept with the text of its [what()]. *)
Inductive exception : Type :=
| CheckFailedException
| std_exception (what : string).

Global Instance exception_eq_dec : EqDecision exception.
Proof. solve_decision. Defined.

(** How a member function ends: it returns, or an exception leaves it. *)
Inductive result (A : Type) : Type :=
| Return (a : A)
| Throw (e : exception).
Global Arguments Return {A} a.
Global Arguments Throw {A} e.

(** How a call into a library (Poco, the standard library) ends: with a
    value, or with a [std::exception] that is not a [CheckFailedException],
    a class that no library knows; [what] is the text of its [what()]. *)
Inductive fallible (A : Type) : Type :=
| Ok (a : A)
| Raise (what : string).
Global Arguments Ok {A} a.
Global Arguments Raise {A} what.

Definition raises {A} (r : fallible A) : bool :=
  match r with Ok _ => false | Raise _ => true end.

Global Instance fallible_ret : MRet fallible := @Ok.
Global Instance fallible_bind : MBind fallible := fun A B k r =>
  match r with
  | Ok a => k a
  | Raise what => Raise what
  end.

(** ** Poco::URI *)

Local Open Scope char_scope.

Definition is_one_of (cs : list ascii) (c : ascii) : bool :=
  existsb (Ascii.eqb c) cs.

(** The scanning loop of the parser: characters are appended to the
    accumulator until the end or a character on which [stop] holds; the
    result is the characters read and what is left. *)
Fixpoint read_until (stop : ascii -> bool) (s : string) : string * string :=
  match s with
  | EmptyString => (EmptyString, EmptyString)
  | String c s' =>
      if stop c then (EmptyString, s)
      else let (acc, rest) := read_until stop s' in (String c acc, rest)
  end.

Definition toLower_char (c : ascii) : ascii :=
  let n := N_of_ascii c in
  if ((65 <=? n) && (n <=? 90))%N then ascii_of_N (n + 32) else c.

Fixpoint toLower (s : string) : string :=
  match s with
  | EmptyString => EmptyString
  | String c s' => String (toLower_char c) (toLower s')
  end.

Definition hex_digit (c : ascii) : option N :=
  let n := N_of_ascii c in
  if ((48 <=? n) && (n <=? 57))%N then Some (n - 48)%N
  else if ((65 <=? n) && (n <=? 70))%N then Some (n - 55)%N
  else if ((97 <=? n) && (n <=? 102))%N then Some (n - 87)%N
  else None.

Definition URISyntaxException : string := "Bad URI syntax".

(** [URI::decode]: percent-decoding; a percent sign that is not followed by
    two hexadecimal digits is a [URISyntaxException]. *)
Fixpoint URI_decode (s : string) : fallible string :=
  match s with
  | EmptyString => Ok EmptyString
  | String "%" (String hi (String lo rest)) =>
      match hex_digit hi, hex_digit lo with
      | Some h, Some l =>
          match URI_decode rest with
          | Ok d => Ok (String (ascii_of_N (h * 16 + l)) d)
          | Raise e => Raise e
          end
      | _, _ => Raise URISyntaxException
      end
  | String "%" _ => Raise URISyntaxException
  | String c rest =>
      match URI_decode rest with
      | Ok d => Ok (String c d)
      | Raise e => Raise e
      end
  end.

(** The components of a [Poco::URI] that the fake server reads. *)
Record URI : Type := mkURI {
  getScheme : string;
  getHost : string;
  getPath : string;
  getRawQuery : string
}.

Definition is_digit (c : ascii) : bool :=
  let n := N_of_ascii c in ((48 <=? n) && (n <=? 57))%N.

(** The value of a string of decimal digits. *)
Fixpoint decimal (acc : N) (s : string) : option N :=
  match s with
  | EmptyString => Some acc
  | String c s' =>
      if is_digit c then decimal (acc * 10 + (N_of_ascii c - 48))%N s'
      else None
  end.

(** The port of [URI::parseHostAndPort], read from what follows the host:
    nothing, or a colon and then either nothing or a decimal number from 1
    to 65535; anything else after the colon is a [URISyntaxException].  The
    fake server does not read the port, which is not kept. *)
Definition parsePort (rest : string) : fallible unit :=
  match rest with
  | String ":" (String c port) =>
      match decimal 0 (String c port) with
      | Some n => if ((0 <? n) && (n <? 65536))%N then Ok tt
                  else Raise URISyntaxException
      | None => Raise URISyntaxException
      end
  | _ => Ok tt
  end.

(** [URI::parseHostAndPort]: the host, between brackets for an IPv6
    address, lower-cased, and the port. *)
Definition parseHostAndPort (part : string) : fallible string :=
  match part with
  | EmptyString => Ok EmptyString
  | String "[" s =>
      let (host, rest) := read_until (Ascii.eqb "]") s in
      match rest with
      | EmptyString => Raise URISyntaxException
      | String _ rest' => parsePort rest';; mret (toLower host)
      end
  | _ =>
      let (host, rest) := read_until (Ascii.eqb ":") part in
      parsePort rest;; mret (toLower host)
  end.

(** [URI::parseAuthority]: an optional [userinfo@], and then the host and
    the port. *)
Definition parseAuthority (authority : string) : fallible string :=
  let fix after_at (part s : string) : string :=
    match s with
    | EmptyString => part
    | String "@" s' => after_at s' s'
    | String _ s' => after_at part s'
    end in
  parseHostAndPort (after_at authority authority).

(** [URI::parsePathEtc]: the path up to [?] or [#], the query up to [#],
    and the fragment; path and fragment are percent-decoded, the query is
    kept as it is.  The fragment is not read by the fake server and is not
    kept. *)
Definition parsePathEtc (scheme host s : string) : fallible URI :=
  let (path, rest) := read_until (is_one_of ["?"; "#"]) s in
  let (query, rest') :=
    match rest with
    | String "?" q => read_until (Ascii.eqb "#") q
    | _ => (EmptyString, rest)
    end in
  let fragment := match rest' with String "#" f => f | _ => EmptyString end in
  path' ← URI_decode path;
  _ ← URI_decode fragment;
  mret (mkURI scheme host path' query).

(** [URI::URI(const std::string&)], that is [URI::parse]. *)
Definition URI_parse (uri : string) : fallible URI :=
  match uri with
  | EmptyString => Ok (mkURI "" "" "" "")
  | String c _ =>
      if is_one_of ["/"; "."; "?"; "#"] c then parsePathEtc "" "" uri
      else
        let (scheme, rest) := read_until (is_one_of [":"; "?"; "#"; "/"]) uri in
        match rest with
        | String ":" EmptyString => Raise URISyntaxException
        | String ":" (String "/" (String "/" rest')) =>
            let (authority, rest'') :=
              read_until (is_one_of ["/"; "?"; "#"]) rest' in
            host ← parseAuthority authority;
            parsePathEtc (toLower scheme) host rest''
        | String ":" rest' => parsePathEtc (toLower scheme) "" rest'
        | _ => parsePathEtc "" "" uri
        end
  end.

Definition plus_to_space (s : string) : string :=
  let fix go (s : string) : string :=
    match s with
    | EmptyString => EmptyString
    | String "+" s' => String " " (go s')
    | String c s' => String c (go s')
    end in
  go s.

(** One [name[=value]] item of a query string. *)
Definition query_item (item : string) : fallible (string * string) :=
  let (name, rest) := read_until (Ascii.eqb "=") item in
  let value := match rest with String "=" v => v | _ => EmptyString end in
  name' ← URI_decode (plus_to_space name);
  value' ← URI_decode (plus_to_space value);
  mret (name', value').

(** The items of a query string, separated by [&]. *)
Fixpoint query_items (cur : string) (s : string) : list string :=
  match s with
  | EmptyString =>
      match cur with EmptyString => [] | _ => [String.rev cur] end
  | String "&" s' => String.rev cur :: query_items EmptyString s'
  | String c s' => query_items (String c cur) s'
  end.

(** [URI::getQueryParameters]: a [std::vector<std::pair<std::string,
    std::string>>], in the order of the query string. *)
Definition getQueryParameters (u : URI) : fallible (list (string * string)) :=
  mapM query_item (query_items EmptyString (getRawQuery u)).

Local Close Scope char_scope.

(** ** Poco::Net requests and responses, Poco::JSON *)

Definition NotFoundException : string := "Not found".

(** A [Poco::Dynamic::Var] held by a JSON object, given by what the two
    conversions used by the server make of it: [convert<int64_t>()] and
    [convert<std::string>()], each of which may throw. *)
Record Var : Type := mkVar {
  convert_int64 : fallible Z;
  convert_string : fallible string
}.

(** [Poco::JSON::Object]: a map from keys to values. *)
Abbreviation Object := (gmap string Var).

(** The [Var] that [Object::get] returns for a key that is absent: empty,
    it converts to nothing. *)
Definition empty_Var : Var :=
  let what := "Invalid access" in mkVar (Raise what) (Raise what).

Definition Object_get (message : Object) (key : string) : Var :=
  default empty_Var (message !! key).

Definition Object_has (message : Object) (key : string) : bool :=
  bool_decide (is_Some (message !! key)).

(** [Poco::Net::HTTPServerRequest].  [headers] is the header collection,
    in order; [stream] stands for the body: what
    [parser.parse(request.stream())] followed by
    [extract<Poco::JSON::Object::Ptr>()] yields, an object or the exception
    of a body that is not a JSON object. *)
Record HTTPServerRequest : Type := mkRequest {
  getMethod : string;
  getURI : string;
  headers : list (string * string);
  stream : fallible Object
}.

(** [NameValueCollection::get]: the value of the first header of that name
    (names compare without case); throws when there is none. *)
Fixpoint NameValueCollection_get (name : string) (hs : list (string * string))
  : fallible string :=
  match hs with
  | [] => Raise NotFoundException
  | (n, v) :: hs' =>
      if decide (toLower n = toLower name) then Ok v
      else NameValueCollection_get name hs'
  end.

Definition HTTP_OK : Z := 200.
Definition HTTP_BAD_REQUEST : Z := 400.
Definition HTTP_UNAUTHORIZED : Z := 401.
Definition HTTP_INTERNAL_SERVER_ERROR : Z := 500.

(** The fixtures of [fake_data.h], which is not part of the file: opaque
    response bodies, known by their names. *)
Inductive FakeData : Type :=
| GetMeJson
| GetMeErrorJson
| GetUpdatesFourMessagesJson
| SendMessageHiJson
| SendMessageReplyJson
| GetUpdatesTwoMessages
| GetUpdatesZeroMessages
| GetupdatesOneMessage.

(** What is written to the stream returned by [response.send()]. *)
Inductive Chunk : Type :=
| Fixture (data : FakeData)
| Text (s : string).

(** [Poco::Net::HTTPServerResponse]: the status, whether the header has
    been sent, and the body written so far. *)
Record HTTPServerResponse : Type := mkResponse {
  getStatus : Z;
  sent : bool;
  body : list Chunk
}.

(** The response object handed to a handler: status 200, nothing sent. *)
Definition fresh_response : HTTPServerResponse := mkResponse HTTP_OK false [].

(** ** class TestCase *)

Record TestCase : Type := mkTestCase {
  Expectations : list string;
  Fulfilled : Z;
  Fails : list string
}.

Record World : Type := mkWorld {
  this : TestCase;
  response : HTTPServerResponse
}.

Definition M (A : Type) : Type := World -> result A * World.

Global Instance M_ret : MRet M := fun A a w => (Return a, w).
Global Instance M_bind : MBind M := fun A B k m w =>
  match m w with
  | (Return a, w') => k a w'
  | (Throw e, w') => (Throw e, w')
  end.

Definition throw {A} (e : exception) : M A := fun w => (Throw e, w).

(** A call into a library: its exception, if any, is a [std::exception]. *)
Definition call {A} (r : fallible A) : M A := fun w =>
  match r with
  | Ok a => (Return a, w)
  | Raise what => (Throw (std_exception what), w)
  end.

(** [try { m } catch (e) { h e }] *)
Definition try_catch {A} (m : M A) (h : exception -> M A) : M A := fun w =>
  match m w with
  | (Return a, w') => (Return a, w')
  | (Throw e, w') => h e w'
  end.

(** [if (b) { m }] *)
Definition when (b : bool) (m : M unit) : M unit :=
  if b then m else mret tt.

Definition get_Fulfilled : M Z := fun w => (Return (Fulfilled (this w)), w).

(** [++Fulfilled] *)
Definition incr_Fulfilled : M unit := fun w =>
  (Return tt,
   mkWorld (mkTestCase (Expectations (this w))
                       (int_wrap (Fulfilled (this w) + 1))
                       (Fails (this w)))
           (response w)).

Definition setStatus (status : Z) : M unit := fun w =>
  (Return tt,
   mkWorld (this w) (mkResponse status (sent (response w)) (body (response w)))).

(** [response.send()] *)
Definition send : M unit := fun w =>
  (Return tt,
   mkWorld (this w) (mkResponse (getStatus (response w)) true (body (response w)))).

(** [response.send() << chunk] *)
Definition send_body (chunk : Chunk) : M unit := fun w =>
  (Return tt,
   mkWorld (this w)
     (mkResponse (getStatus (response w)) true (body (response w) ++ [chunk]))).

(** [TestCase::Fail] *)
Definition Fail (message : string) : M unit := fun w =>
  (Throw CheckFailedException,
   mkWorld (mkTestCase (Expectations (this w))
                       (Fulfilled (this w))
                       (Fails (this w) ++ [message]))
           (response w)).

(** [operator<] of [std::pair<std::string, std::string>]; strings compare
    byte by byte, as unsigned characters. *)
Definition pair_lt (x y : string * string) : bool :=
  String.ltb x.1 y.1 || (negb (String.ltb y.1 x.1) && String.ltb x.2 y.2).

(** What a sorted range satisfies between an element and a later one. *)
Definition pair_le (x y : string * string) : Prop := pair_lt y x = false.

Global Instance pair_le_dec : RelDecision pair_le.
Proof. intros x y. unfold pair_le. apply _. Defined.

(** [std::sort(v.begin(), v.end())].  The order is total and distinguishes
    any two different pairs, so that the sorted vector does not depend on
    the algorithm ([std_sort_unique] below); merge sort stands for it. *)
Definition std_sort (v : list (string * string)) : list (string * string) :=
  merge_sort pair_le v.

(** [TestCase::ExpectURI] *)
Definition ExpectURI (request : HTTPServerRequest) (uri : string) : M unit :=
  req_uri ← call (URI_parse (getURI request));
  req_query ← call (getQueryParameters req_uri);
  compare_uri ← call (URI_parse uri);
  compare_query ← call (getQueryParameters compare_uri);
  let req_query := std_sort req_query in
  let compare_query := std_sort compare_query in
  when (bool_decide (getHost req_uri ≠ getHost compare_uri))
    (Fail ("Invalid Host: expected " +:+ getHost compare_uri +:+ ", got " +:+
           getHost req_uri));;
  when (bool_decide (getPath req_uri ≠ getPath compare_uri))
    (Fail ("Invalid Path: expected " +:+ getPath compare_uri +:+ ", got " +:+
           getPath req_uri));;
  when (bool_decide (req_query ≠ compare_query))
    (Fail "Invalid Query params").

(** [TestCase::ExpectMethod] *)
Definition ExpectMethod (request : HTTPServerRequest) (method : string) : M unit :=
  when (bool_decide (getMethod request ≠ method))
    (Fail ("Invalid method: expected " +:+ method +:+ ", got " +:+
           getMethod request)).

(** [std::endl] *)
Definition endl : string := String (ascii_of_nat 10) EmptyString.

Definition unsatisfied_line (expectation : string) : string :=
  "Expectation not satisfied: " +:+ expectation +:+ endl.

Definition error_line (error : string) : string :=
  "Error encountered: " +:+ error +:+ endl.

(** The first loop of [Check]: [i] runs over
    [size_t(Fulfilled), ..., Expectations.size() - 1]. *)
Definition Check_expectations (this : TestCase) (acc : bool * string)
  : bool * string :=
  let size := Z.of_nat (length (Expectations this)) in
  let start := to_size_t (Fulfilled this) in
  foldl (fun '(fail, errors) i =>
           (true, errors +:+ unsatisfied_line (Expectations this !!! Z.to_nat i)))
        acc (seqZ start (size - start)).

(** The second loop of [Check], over [Fails]. *)
Definition Check_fails (this : TestCase) (acc : bool * string) : bool * string :=
  foldl (fun '(fail, errors) error => (true, errors +:+ error_line error))
        acc (Fails this).

(** [TestCase::Check]: [Raise report] is
    [throw std::runtime_error(report)]. *)
Definition Check (this : TestCase) : fallible unit :=
  let '(fail, errors) :=
    Check_fails this (Check_expectations this (false, EmptyString)) in
  if fail then Raise errors else Ok tt.

(** ** The scripted test cases *)

(** The double quote character, for the expectation texts that quote a
    message. *)
Definition dquote : string := String (ascii_of_nat 34) EmptyString.

Module SingleGetMeTestCase.

Definition new : TestCase :=
  mkTestCase ["Client sends getMe request"] 0 [].

Definition HandleRequest (request : HTTPServerRequest) : M unit :=
  ExpectURI request "/bot123/getMe";;
  ExpectMethod request "GET";;
  incr_Fulfilled;;
  Fulfilled ← get_Fulfilled;
  if decide (Fulfilled = 1) then
    setStatus HTTP_OK;;
    send_body (Fixture GetMeJson)
  else
    Fail "Unexpected extra request".

End SingleGetMeTestCase.

Module ErrorHandlingTestCase.

Definition new : TestCase :=
  mkTestCase
    ["Client sends getMe request and receives Internal Server error";
     "Client sends getMe request and receives error json"] 0 [].

Definition HandleRequest (request : HTTPServerRequest) : M unit :=
  ExpectURI request "/bot123/getMe";;
  ExpectMethod request "GET";;
  incr_Fulfilled;;
  Fulfilled ← get_Fulfilled;
  if decide (Fulfilled = 1) then
    setStatus HTTP_INTERNAL_SERVER_ERROR;;
    send_body (Text "Internal server error")
  else if decide (Fulfilled = 2) then
    setStatus HTTP_UNAUTHORIZED;;
    send_body (Fixture GetMeErrorJson)
  else
    Fail "Unexpected extra request".

End ErrorHandlingTestCase.

Module GetUpdatesAndSendMessagesTestCase.

Definition new : TestCase :=
  mkTestCase
    ["Client sends getUpdates request";
     "Client sends message " +:+ dquote +:+ "Hi!" +:+ dquote;
     "Client sends reply " +:+ dquote +:+ "Reply" +:+ dquote;
     "Client sends reply " +:+ dquote +:+ "Reply" +:+ dquote] 0 [].

(** The lambda [checkContentType]. *)
Definition checkContentType (request : HTTPServerRequest) : M unit :=
  content_type ← call (NameValueCollection_get "Content-Type" (headers request));
  when (bool_decide (content_type ≠ "application/json"))
    (Fail "Content-Type header is not set").

(** The lambda [parseJson].  It assigns the locals [chatId] and [text], and
    [hasReplyToMessageId] together with [replyToMessageId], which the code
    reads only when the flag is set: the two are one [option] here. *)
Definition parseJson (request : HTTPServerRequest) : M (Z * string * option Z) :=
  message ← call (stream request);
  chatId ← call (convert_int64 (Object_get message "chat_id"));
  text ← call (convert_string (Object_get message "text"));
  if Object_has message "reply_to_message_id" then
    replyToMessageId ←
      call (convert_int64 (Object_get message "reply_to_message_id"));
    mret (chatId, text, Some replyToMessageId)
  else
    mret (chatId, text, None).

Definition HandleRequest (request : HTTPServerRequest) : M unit :=
  incr_Fulfilled;;
  Fulfilled ← get_Fulfilled;
  if decide (Fulfilled = 1) then
    ExpectURI request "/bot123/getUpdates";;
    ExpectMethod request "GET";;
    setStatus HTTP_OK;;
    send_body (Fixture GetUpdatesFourMessagesJson)
  else if decide (Fulfilled = 2) then
    ExpectURI request "/bot123/sendMessage";;
    ExpectMethod request "POST";;
    checkContentType request;;
    '(chatId, text, _) ← parseJson request;
    when (bool_decide (text ≠ "Hi!")) (Fail "Invalid text in message #1");;
    when (bool_decide (chatId ≠ 104519755)) (Fail "Invalid chat_id in message #1");;
    setStatus HTTP_OK;;
    send_body (Fixture SendMessageHiJson)
  else if decide (Fulfilled = 3 ∨ Fulfilled = 4) then
    ExpectURI request "/bot123/sendMessage";;
    ExpectMethod request "POST";;
    checkContentType request;;
    '(chatId, text, replyToMessageId) ← parseJson request;
    when (bool_decide (text ≠ "Reply")) (Fail "Invalid text in reply message");;
    when (bool_decide (chatId ≠ 104519755)) (Fail "Invalid chat id in reply message");;
    when (bool_decide (replyToMessageId ≠ Some 2))
      (Fail "reply_to_message_id field is incorrect");;
    setStatus HTTP_OK;;
    send_body (Fixture SendMessageReplyJson)
  else
    Fail "Unexpected extra request".

End GetUpdatesAndSendMessagesTestCase.

Module HandleOffsetTestCase.

Definition new : TestCase :=
  mkTestCase
    ["Client sends request and receives 2 messages";
     "Client sends request with correct offset and receives 0 messages";
     "Client sends request with current offset and receives 1 message"] 0 [].

Definition HandleRequest (request : HTTPServerRequest) : M unit :=
  incr_Fulfilled;;
  Fulfilled ← get_Fulfilled;
  if decide (Fulfilled = 1) then
    ExpectURI request "/bot123/getUpdates?timeout=5";;
    ExpectMethod request "GET";;
    setStatus HTTP_OK;;
    send_body (Fixture GetUpdatesTwoMessages)
  else if decide (Fulfilled = 2) then
    ExpectURI request "/bot123/getUpdates?offset=851793508&timeout=5";;
    ExpectMethod request "GET";;
    setStatus HTTP_OK;;
    send_body (Fixture GetUpdatesZeroMessages)
  else if decide (Fulfilled = 3) then
    ExpectURI request "/bot123/getUpdates?offset=851793508&timeout=5";;
    ExpectMethod request "GET";;
    setStatus HTTP_OK;;
    send_body (Fixture GetupdatesOneMessage)
  else
    Fail "Unexpected extra request".

End HandleOffsetTestCase.

(** The dynamic type of a [TestCase] object: the four subclasses. *)
Inductive Scenario : Type :=
| SingleGetMe
| ErrorHandling
| GetUpdatesAndSendMessages
| HandleOffset.

Global Instance Scenario_eq_dec : EqDecision Scenario.
Proof. solve_decision. Defined.

(** The constructor of each subclass. *)
Definition new (v : Scenario) : TestCase :=
  match v with
  | SingleGetMe => SingleGetMeTestCase.new
  | ErrorHandling => ErrorHandlingTestCase.new
  | GetUpdatesAndSendMessages => GetUpdatesAndSendMessagesTestCase.new
  | HandleOffset => HandleOffsetTestCase.new
  end.

(** The virtual call [TestCase::HandleRequest]. *)
Definition HandleRequest (v : Scenario) (request : HTTPServerRequest) : M unit :=
  match v with
  | SingleGetMe => SingleGetMeTestCase.HandleRequest request
  | ErrorHandling => ErrorHandlingTestCase.HandleRequest request
  | GetUpdatesAndSendMessages =>
      GetUpdatesAndSendMessagesTestCase.HandleRequest request
  | HandleOffset => HandleOffsetTestCase.HandleRequest request
  end.

(** ** class FakeHandler and class FakeServer *)

(** [FakeHandler::handleRequest].  The lock on [TestCase_->Mutex] makes the
    calls on one test case sequential; the model is sequential throughout.
    [TestCase::Fail] throws, so that the [throw;] after it in the second
    handler is never reached: what leaves the handler there is the
    [CheckFailedException] of [Fail], which no handler of this [try] block
    catches, as it is thrown from inside one of them. *)
Definition handleRequest (TestCase_ : Scenario) (request : HTTPServerRequest)
  : M unit :=
  try_catch (HandleRequest TestCase_ request)
    (fun e =>
       match e with
       | CheckFailedException =>
           setStatus HTTP_BAD_REQUEST;;
           send
       | std_exception what =>
           Fail what;;
           throw e
       end).

(** One HTTP exchange: the handler runs on the test case with a response
    object of its own; the result is whether the handler returned or threw,
    the test case afterwards and the response. *)
Definition serve (v : Scenario) (request : HTTPServerRequest) (tc : TestCase)
  : result unit * World :=
  handleRequest v request (mkWorld tc fresh_response).

(** The test case after the exchanges of the requests [rs], in order. *)
Definition serve_all (v : Scenario) (rs : list HTTPServerRequest) (tc : TestCase)
  : TestCase :=
  foldl (fun tc request => this (serve v request tc).2) tc rs.

(** [FakeServer::FakeServer]: the test case of a name, or the
    [std::runtime_error] of an unknown one. *)
Definition FakeServer (testCase : string) : fallible (Scenario * TestCase) :=
  if decide (testCase = "Single getMe") then
    Ok (SingleGetMe, new SingleGetMe)
  else if decide (testCase = "getMe error handling") then
    Ok (ErrorHandling, new ErrorHandling)
  else if decide (testCase = "Single getUpdates and send messages") then
    Ok (GetUpdatesAndSendMessages, new GetUpdatesAndSendMessages)
  else if decide (testCase = "Handle getUpdates offset") then
    Ok (HandleOffset, new HandleOffset)
  else
    Raise ("Unknown test case name " +:+ testCase).

(** [FakeServer::StopAndCheckExpectations], once the listener is stopped. *)
Definition StopAndCheckExpectations (server : Scenario * TestCase) : fallible unit :=
  Check server.2.

(** * Specification-level definitions *)

(** The world after [Fail message]. *)
Definition failed (message : string) (w : World) : World :=
  mkWorld (mkTestCase (Expectations (this w)) (Fulfilled (this w))
                      (Fails (this w) ++ [message]))
          (response w).

(** The world after [++Fulfilled]. *)
Definition counted (w : World) : World :=
  mkWorld (mkTestCase (Expectations (this w)) (int_wrap (Fulfilled (this w) + 1))
                      (Fails (this w)))
          (response w).

(** The world after [response.setStatus(status); response.send() << chunk]. *)
Definition replied (status : Z) (chunk : Chunk) (w : World) : World :=
  mkWorld (this w) (mkResponse status true (body (response w) ++ [chunk])).

(** The three ways in which a validation step can end: it returns and
    leaves the world as it was, it fails with one more entry in [Fails], or
    a library call throws and the world is as it was. *)
Inductive checked {A} (w : World) : result A * World -> Prop :=
| check_passed (a : A) : checked w (Return a, w)
| check_failed (message : string) :
    checked w (Throw CheckFailedException, failed message w)
| check_threw (what : string) : checked w (Throw (std_exception what), w).

Definition is_check {A} (m : M A) : Prop := forall w, checked w (m w).

(** The three ways in which [HandleRequest] can end, seen from the world
    [w1] in which the step of the script was chosen: [n] is the number of
    scripted steps. *)
Inductive handled (n : Z) (w1 : World) : result unit * World -> Prop :=
| handled_replied (status : Z) (chunk : Chunk) :
    1 <= Fulfilled (this w1) <= n ->
    handled n w1 (Return tt, replied status chunk w1)
| handled_failed (message : string) :
    handled n w1 (Throw CheckFailedException, failed message w1)
| handled_threw (what : string) :
    handled n w1 (Throw (std_exception what), w1).

(** A step of a script: run in a world whose counter is within the
    script, it ends in one of the three ways. *)
Definition handles (n : Z) (m : M unit) : Prop :=
  forall w1, 1 <= Fulfilled (this w1) <= n -> handled n w1 (m w1).

(** The number of scripted steps of a test case. *)
Definition steps (v : Scenario) : Z := Z.of_nat (length (Expectations (new v))).

(** The actual and the expected URI agree: both parse, host and path are
    equal, and the query parameters are the same up to their order. *)
Definition uri_matches (actual expected : string) : Prop :=
  exists u q u' q',
    URI_parse actual = Ok u /\ getQueryParameters u = Ok q /\
    URI_parse expected = Ok u' /\ getQueryParameters u' = Ok q' /\
    getHost u = getHost u' /\ getPath u = getPath u' /\ q ≡ₚ q'.

(** A request that passes [ExpectURI request uri; ExpectMethod request method]. *)
Definition accepts (request : HTTPServerRequest) (uri method : string) : Prop :=
  uri_matches (getURI request) uri /\ getMethod request = method.

(** [s'] is [s] with its query parameters in another order: both parse, to
    the same host and path and to the same (key, value) pairs, each as many
    times as in the other, up to order. *)
Definition reordered (s s' : string) : Prop := uri_matches s s'.

(** The request is a [GET] whose URI has no host, the path [path] and the
    query parameters [params], in any order. *)
Definition carries (request : HTTPServerRequest) (path : string)
    (params : list (string * string)) : Prop :=
  getMethod request = "GET" /\
  exists u q,
    URI_parse (getURI request) = Ok u /\ getQueryParameters u = Ok q /\
    getHost u = "" /\ getPath u = path /\ q ≡ₚ params.

(** What [HandleOffsetTestCase] answers to [request] on the test case [tc]:
    the fixture, with status 200, when the request is the scripted one;
    otherwise one failure is recorded and no body is written. *)
Definition answers (tc : TestCase) (request : HTTPServerRequest) (path : string)
    (params : list (string * string)) (fixture : FakeData) : Prop :=
  (carries request path params ->
   serve HandleOffset request tc =
     (Return tt,
      mkWorld (mkTestCase (Expectations tc) (Fulfilled tc + 1) (Fails tc))
              (mkResponse HTTP_OK true [Fixture fixture]))) /\
  (~ carries request path params ->
   exists message,
     Fails (this (serve HandleOffset request tc).2) = (Fails tc ++ [message])%list /\
     body (response (serve HandleOffset request tc).2) = []).

(** [needle] occurs in [s]. *)
Fixpoint contains (needle s : string) : bool :=
  String.prefix needle s ||
  match s with
  | EmptyString => false
  | String _ s' => contains needle s'
  end.

Definition concat_lines (lines : list string) : string :=
  foldr String.append EmptyString lines.

(** The report of [Check]: one line for each expectation from index
    [Fulfilled] on, then one line for each recorded failure. *)
Definition report (this : TestCase) : string :=
  concat_lines
    ((unsatisfied_line <$> drop (Z.to_nat (Fulfilled this)) (Expectations this)) ++
     (error_line <$> Fails this)).

(** Requests and test cases used as examples. *)
Definition get (uri : string) : HTTPServerRequest :=
  mkRequest "GET" uri [] (Raise "no body").

Definition post_getMe : HTTPServerRequest :=
  mkRequest "POST" "/bot123/getMe" [] (Raise "no body").

Definition bad_json : HTTPServerRequest :=
  mkRequest "POST" "/bot123/sendMessage" [("Content-Type", "application/json")]
            (Raise "JSON Exception").

Definition after_getUpdates : TestCase :=
  mkTestCase (Expectations (new GetUpdatesAndSendMessages)) 1 [].

(** A JSON value that is an integer, and one that is a string. *)
Definition Var_int (z : Z) : Var := mkVar (Ok z) (Raise "Bad cast exception").
Definition Var_string (s : string) : Var := mkVar (Raise "Syntax error") (Ok s).

(** [POST /bot123/sendMessage] with a JSON body. *)
Definition sendMessage (chat_id : Z) (text : string) (reply : option Z)
  : HTTPServerRequest :=
  let message : Object :=
    <["chat_id" := Var_int chat_id]> (<["text" := Var_string text]> ∅) in
  mkRequest "POST" "/bot123/sendMessage" [("Content-Type", "application/json")]
    (Ok (match reply with
         | Some id => <["reply_to_message_id" := Var_int id]> message
         | None => message
         end)).

(** ** Definitions for the further properties *)

(** The answer of each step of each script, as the branches of the four
    [HandleRequest] give it: the status and what is written to the body. *)
Definition script (v : Scenario) (k : Z) : option (Z * Chunk) :=
  match v with
  | SingleGetMe =>
      if decide (k = 1) then Some (HTTP_OK, Fixture GetMeJson) else None
  | ErrorHandling =>
      if decide (k = 1) then
        Some (HTTP_INTERNAL_SERVER_ERROR, Text "Internal server error")
      else if decide (k = 2) then Some (HTTP_UNAUTHORIZED, Fixture GetMeErrorJson)
      else None
  | GetUpdatesAndSendMessages =>
      if decide (k = 1) then Some (HTTP_OK, Fixture GetUpdatesFourMessagesJson)
      else if decide (k = 2) then Some (HTTP_OK, Fixture SendMessageHiJson)
      else if decide (k = 3 \/ k = 4) then Some (HTTP_OK, Fixture SendMessageReplyJson)
      else None
  | HandleOffset =>
      if decide (k = 1) then Some (HTTP_OK, Fixture GetUpdatesTwoMessages)
      else if decide (k = 2) then Some (HTTP_OK, Fixture GetUpdatesZeroMessages)
      else if decide (k = 3) then Some (HTTP_OK, Fixture GetupdatesOneMessage)
      else None
  end.

(** The three ways in which [HandleRequest] can end, with the answer that
    is sent: [w1] is the world in which the step was chosen. *)
Inductive scripted (v : Scenario) (w1 : World) : result unit * World -> Prop :=
| scripted_replied (status : Z) (chunk : Chunk) :
    script v (Fulfilled (this w1)) = Some (status, chunk) ->
    scripted v w1 (Return tt, replied status chunk w1)
| scripted_failed (message : string) :
    scripted v w1 (Throw CheckFailedException, failed message w1)
| scripted_threw (what : string) :
    scripted v w1 (Throw (std_exception what), w1).

(** The body [m] of the step [k] of the script of [v]. *)
Definition plays (v : Scenario) (k : Z) (m : M unit) : Prop :=
  forall w1, Fulfilled (this w1) = k -> scripted v w1 (m w1).

(** The test cases whose handler counts the request before it checks it. *)
Definition counts_first (v : Scenario) : bool :=
  match v with
  | GetUpdatesAndSendMessages | HandleOffset => true
  | SingleGetMe | ErrorHandling => false
  end.

(** [uri_matches] and [accepts], decided. *)
Definition uri_matchesb (actual expected : string) : bool :=
  match URI_parse actual, URI_parse expected with
  | Ok u, Ok u' =>
      match getQueryParameters u, getQueryParameters u' with
      | Ok q, Ok q' =>
          bool_decide (getHost u = getHost u') &&
          bool_decide (getPath u = getPath u') &&
          bool_decide (q ≡ₚ q')
      | _, _ => false
      end
  | _, _ => false
  end.

Definition acceptsb (request : HTTPServerRequest) (uri method : string) : bool :=
  uri_matchesb (getURI request) uri && bool_decide (getMethod request = method).

(** The body of the request is a JSON object from which [parseJson] reads
    the chat [chatId], the text [text] and the optional [reply], the value
    of [reply_to_message_id]. *)
Definition reads (request : HTTPServerRequest) (chatId : Z) (text : string)
    (reply : option Z) : Prop :=
  exists message : Object,
    stream request = Ok message /\
    convert_int64 (Object_get message "chat_id") = Ok chatId /\
    convert_string (Object_get message "text") = Ok text /\
    match message !! "reply_to_message_id" with
    | Some var => exists id, convert_int64 var = Ok id /\ reply = Some id
    | None => reply = None
    end.

(** The request has no header of that name, in any case of the letters. *)
Definition no_header (name : string) (request : HTTPServerRequest) : Prop :=
  Forall (fun h : string * string => toLower h.1 <> toLower name) (headers request).

(** The world after an exchange that recorded [message]: the test case of
    [w] with the message appended, and the response [r]. *)
Definition recorded (message : string) (r : HTTPServerResponse) (w : World)
  : World :=
  mkWorld (this (failed message w)) r.

(** The answer to a request that failed a check: status 400, sent, no body. *)
Definition bad_request : HTTPServerResponse :=
  mkResponse HTTP_BAD_REQUEST true [].

(** The three ways in which an exchange can end, seen from the world [w1]
    in which its outcome was decided: answered from the script, rejected
    with status 400, or left by an exception. *)
Inductive exchanged (v : Scenario) (w1 : World) : result unit * World -> Prop :=
| exchanged_answered (status : Z) (chunk : Chunk) :
    script v (Fulfilled (this w1)) = Some (status, chunk) ->
    exchanged v w1 (Return tt, replied status chunk w1)
| exchanged_rejected (message : string) :
    exchanged v w1 (Return tt, recorded message bad_request w1)
| exchanged_aborted (what : string) :
    exchanged v w1 (Throw CheckFailedException, recorded what fresh_response w1).

(** What the step for the message "Hi!" does once [parseJson] has read the
    message [x]: the part of the second branch of
    [GetUpdatesAndSendMessagesTestCase::HandleRequest] after [parseJson()]. *)
Definition Hi_checks (x : Z * string * option Z) : M unit :=
  let '(chatId, text, _) := x in
  when (bool_decide (text ≠ "Hi!")) (Fail "Invalid text in message #1");;
  when (bool_decide (chatId ≠ 104519755)) (Fail "Invalid chat_id in message #1");;
  setStatus HTTP_OK;;
  send_body (Fixture SendMessageHiJson).

(** The same part of the third branch, for the two replies. *)
Definition Reply_checks (x : Z * string * option Z) : M unit :=
  let '(chatId, text, replyToMessageId) := x in
  when (bool_decide (text ≠ "Reply")) (Fail "Invalid text in reply message");;
  when (bool_decide (chatId ≠ 104519755)) (Fail "Invalid chat id in reply message");;
  when (bool_decide (replyToMessageId ≠ Some 2))
    (Fail "reply_to_message_id field is incorrect");;
  setStatus HTTP_OK;;
  send_body (Fixture SendMessageReplyJson).

(** A [sendMessage] request as the script wants it: a [POST] of
    [/bot123/sendMessage] with the header [Content-Type: application/json]
    and a body with the chat 104519755, the text [text] and the reply id
    [reply]. *)
Definition sends (request : HTTPServerRequest) (text : string) (reply : option Z)
  : Prop :=
  accepts request "/bot123/sendMessage" "POST" /\
  NameValueCollection_get "Content-Type" (headers request) = Ok "application/json" /\
  reads request 104519755 text reply.

(** The name under which [FakeServer::FakeServer] knows a test case. *)
Definition name_of (v : Scenario) : string :=
  match v with
  | SingleGetMe => "Single getMe"
  | ErrorHandling => "getMe error handling"
  | GetUpdatesAndSendMessages => "Single getUpdates and send messages"
  | HandleOffset => "Handle getUpdates offset"
  end.

(** * Properties *)

(** ** Strings *)

Lemma append_empty_r (s : string) : s +:+ EmptyString = s.
Proof. induction s as [|c s IH]; [done|]. change (String c (s +:+ "") = String c s). by rewrite IH. Qed.

Lemma append_assoc (s1 s2 s3 : string) : (s1 +:+ s2) +:+ s3 = s1 +:+ (s2 +:+ s3).
Proof.
  induction s1 as [|c s1 IH]; [done|].
  change (String c ((s1 +:+ s2) +:+ s3) = String c (s1 +:+ (s2 +:+ s3))).
  by rewrite IH.
Qed.

Lemma prefix_append (s t : string) : String.prefix s (s +:+ t) = true.
Proof.
  induction s as [|c s IH]; [by destruct t|].
  change (String.prefix (String c s) (String c (s +:+ t)) = true).
  simpl. destruct (ascii_dec c c); [done|congruence].
Qed.

Lemma contains_append_l (x a s : string) :
  contains x s = true -> contains x (a +:+ s) = true.
Proof.
  intros H. induction a as [|c a IH]; [done|].
  change (contains x (String c (a +:+ s)) = true).
  simpl. rewrite IH. apply orb_true_r.
Qed.

Lemma contains_prefix (x s : string) :
  String.prefix x s = true -> contains x s = true.
Proof. intros H. destruct s; cbn [contains]; by rewrite H. Qed.

Lemma contains_here (x a b : string) : contains x (a +:+ x +:+ b) = true.
Proof. apply contains_append_l, contains_prefix, prefix_append. Qed.

(** ** The order of [std::sort] *)

Lemma ltb_false_le (a b : string) : String.ltb a b = false <-> (b ≤ a)%string.
Proof.
  unfold String.le, String.leb, String.ltb. rewrite (String.compare_antisym a b).
  destruct (b ?= a)%string; simpl; split; (done || intros []).
Qed.

Lemma ltb_true_lt (a b : string) :
  String.ltb a b = true <-> (a ≤ b)%string /\ a <> b.
Proof.
  split.
  - intros Hlt. split.
    + destruct (total String.le a b) as [|Hba]; [done|].
      apply ltb_false_le in Hba. congruence.
    + intros ->. assert (String.ltb b b = false) by (by apply ltb_false_le).
      congruence.
  - intros [Hle Hne]. destruct (String.ltb a b) eqn:E; [done|].
    apply ltb_false_le in E. destruct Hne. by apply (anti_symm String.le).
Qed.

Lemma pair_le_spec (x y : string * string) :
  pair_le x y <-> (x.1 ≤ y.1)%string /\ (x.1 <> y.1 \/ (x.2 ≤ y.2)%string).
Proof.
  unfold pair_le, pair_lt.
  rewrite orb_false_iff, andb_false_iff, negb_false_iff, !ltb_false_le, ltb_true_lt.
  tauto.
Qed.

Global Instance pair_le_total : Total pair_le.
Proof.
  intros x y. rewrite !pair_le_spec.
  destruct (decide (x.1 = y.1)) as [E|NE].
  - rewrite E. destruct (total String.le x.2 y.2); [left|right]; split; auto.
  - destruct (total String.le x.1 y.1); [left|right]; split; auto.
Qed.

Global Instance pair_le_trans : Transitive pair_le.
Proof.
  intros x y z. rewrite !pair_le_spec. intros [H1 H2] [H3 H4].
  split; [by etrans|].
  destruct (decide (x.1 = z.1)) as [E|NE]; [right|by left].
  assert (x.1 = y.1) as Exy.
  { apply (anti_symm String.le); [done|]. by rewrite E. }
  assert (y.1 = z.1) as Eyz by congruence.
  destruct H2 as [|H2]; [done|]. destruct H4 as [|H4]; [done|]. by etrans.
Qed.

Global Instance pair_le_antisymm : AntiSymm (=) pair_le.
Proof.
  intros [x1 x2] [y1 y2]. rewrite !pair_le_spec. simpl. intros [H1 H2] [H3 H4].
  assert (x1 = y1) as -> by (by apply (anti_symm String.le)).
  f_equal. apply (anti_symm String.le); tauto.
Qed.

Lemma std_sort_Sorted v : Sorted pair_le (std_sort v).
Proof. apply Sorted_merge_sort, _. Qed.

Lemma std_sort_Permutation v : std_sort v ≡ₚ v.
Proof. apply merge_sort_Permutation. Qed.

(** Whatever the sorting algorithm, the outcome of sorting [v] is
    [std_sort v]. *)
Lemma std_sort_unique v v' : Sorted pair_le v' -> v' ≡ₚ v -> v' = std_sort v.
Proof.
  intros Hs Hp. apply (Sorted_unique pair_le); [done|apply std_sort_Sorted|].
  by rewrite std_sort_Permutation.
Qed.

Lemma std_sort_eq_iff v1 v2 : std_sort v1 = std_sort v2 <-> v1 ≡ₚ v2.
Proof.
  split.
  - intros E. rewrite <-(std_sort_Permutation v1), E. apply std_sort_Permutation.
  - intros Hp. apply std_sort_unique; [apply std_sort_Sorted|].
    by rewrite std_sort_Permutation.
Qed.

(** ** Validation steps *)

Lemma bind_run {A B} (m : M A) (k : A -> M B) (w : World) :
  (m ≫= k) w =
  match m w with
  | (Return a, w') => k a w'
  | (Throw e, w') => (Throw e, w')
  end.
Proof. reflexivity. Qed.

Lemma is_check_ret {A} (a : A) : is_check (mret a).
Proof. intros w. apply check_passed. Qed.

Lemma is_check_call {A} (r : fallible A) : is_check (call r).
Proof.
  intros w. unfold call. destruct r as [a|what].
  - apply check_passed.
  - apply check_threw.
Qed.

Lemma is_check_Fail (message : string) : is_check (Fail message).
Proof. intros w. apply check_failed. Qed.

Lemma is_check_bind {A B} (m : M A) (k : A -> M B) :
  is_check m -> (forall a, is_check (k a)) -> is_check (m ≫= k).
Proof.
  intros Hm Hk w. rewrite bind_run.
  destruct (Hm w) as [a|message|what].
  - apply Hk.
  - apply check_failed.
  - apply check_threw.
Qed.

Lemma is_check_when (b : bool) (m : M unit) : is_check m -> is_check (when b m).
Proof. intros Hm. destruct b; [done|apply is_check_ret]. Qed.

Create HintDb checks.
#[local] Hint Resolve is_check_ret is_check_call is_check_Fail is_check_when : checks.
#[local] Hint Extern 2 (is_check (_ ≫= _)) => apply is_check_bind; [|intros] : checks.
#[local] Hint Extern 3 (is_check (if ?b then _ else _)) => destruct b : checks.
#[local] Hint Extern 3 (is_check (let '(_, _) := ?p in _)) => destruct p : checks.

Lemma is_check_ExpectURI request uri : is_check (ExpectURI request uri).
Proof. unfold ExpectURI. auto 20 with checks. Qed.

Lemma is_check_ExpectMethod request method : is_check (ExpectMethod request method).
Proof. unfold ExpectMethod. auto with checks. Qed.

Lemma is_check_checkContentType request :
  is_check (GetUpdatesAndSendMessagesTestCase.checkContentType request).
Proof. unfold GetUpdatesAndSendMessagesTestCase.checkContentType. auto with checks. Qed.

Lemma is_check_parseJson request :
  is_check (GetUpdatesAndSendMessagesTestCase.parseJson request).
Proof. unfold GetUpdatesAndSendMessagesTestCase.parseJson. auto 20 with checks. Qed.

#[local] Hint Resolve is_check_ExpectURI is_check_ExpectMethod
  is_check_checkContentType is_check_parseJson : checks.

(** ** What [ExpectURI] and [ExpectMethod] decide *)

Lemma ExpectMethod_run request method w :
  ExpectMethod request method w =
  if decide (getMethod request = method) then (Return tt, w)
  else (Throw CheckFailedException,
        failed ("Invalid method: expected " +:+ method +:+ ", got " +:+
                getMethod request) w).
Proof.
  unfold ExpectMethod, when. destruct (decide (getMethod request = method)) as [E|NE].
  - rewrite bool_decide_eq_false_2; [done|]. by intros ?.
  - by rewrite bool_decide_eq_true_2.
Qed.

(** The outcome of [ExpectURI] when both URIs parse. *)
Lemma ExpectURI_run request uri u q u' q' w :
  URI_parse (getURI request) = Ok u -> getQueryParameters u = Ok q ->
  URI_parse uri = Ok u' -> getQueryParameters u' = Ok q' ->
  ExpectURI request uri w =
  if decide (getHost u ≠ getHost u') then
    (Throw CheckFailedException,
     failed ("Invalid Host: expected " +:+ getHost u' +:+ ", got " +:+ getHost u) w)
  else if decide (getPath u ≠ getPath u') then
    (Throw CheckFailedException,
     failed ("Invalid Path: expected " +:+ getPath u' +:+ ", got " +:+ getPath u) w)
  else if decide (q ≡ₚ q') then (Return tt, w)
  else (Throw CheckFailedException, failed "Invalid Query params" w).
Proof.
  intros Hu Hq Hu' Hq'. unfold ExpectURI.
  rewrite bind_run, Hu. cbn [call]. rewrite bind_run, Hq. cbn [call].
  rewrite bind_run, Hu'. cbn [call]. rewrite bind_run, Hq'. cbn [call].
  cbv zeta. rewrite bind_run. unfold when at 1.
  destruct (decide (getHost u ≠ getHost u')) as [Hh|Hh].
  { by rewrite bool_decide_eq_true_2. }
  rewrite bool_decide_eq_false_2 by done. cbn [mret M_ret].
  rewrite bind_run. unfold when at 1.
  destruct (decide (getPath u ≠ getPath u')) as [Hp|Hp].
  { by rewrite bool_decide_eq_true_2. }
  rewrite bool_decide_eq_false_2 by done. cbn [mret M_ret]. unfold when.
  destruct (decide (q ≡ₚ q')) as [Hperm|Hperm].
  - rewrite bool_decide_eq_false_2; [done|]. intros H. apply H. by apply std_sort_eq_iff.
  - rewrite bool_decide_eq_true_2; [done|]. intros H. by apply Hperm, std_sort_eq_iff.
Qed.

Lemma ExpectURI_pass request uri w :
  uri_matches (getURI request) uri -> ExpectURI request uri w = (Return tt, w).
Proof.
  intros (u & q & u' & q' & Hu & Hq & Hu' & Hq' & Hh & Hp & Hperm).
  rewrite (ExpectURI_run _ _ _ _ _ _ _ Hu Hq Hu' Hq').
  rewrite decide_False by (by intros ?). rewrite decide_False by (by intros ?).
  by rewrite decide_True.
Qed.

Lemma ExpectURI_Return request uri w r w' :
  ExpectURI request uri w = (Return r, w') -> uri_matches (getURI request) uri.
Proof.
  intros H.
  destruct (URI_parse (getURI request)) as [u|] eqn:Hu;
    [|by unfold ExpectURI in H; rewrite bind_run, Hu in H].
  destruct (getQueryParameters u) as [q|] eqn:Hq;
    [|by unfold ExpectURI in H; rewrite bind_run, Hu in H; cbn [call] in H;
         rewrite bind_run, Hq in H].
  destruct (URI_parse uri) as [u'|] eqn:Hu';
    [|by unfold ExpectURI in H; rewrite bind_run, Hu in H; cbn [call] in H;
         rewrite bind_run, Hq in H; cbn [call] in H; rewrite bind_run, Hu' in H].
  destruct (getQueryParameters u') as [q'|] eqn:Hq';
    [|by unfold ExpectURI in H; rewrite bind_run, Hu in H; cbn [call] in H;
         rewrite bind_run, Hq in H; cbn [call] in H; rewrite bind_run, Hu' in H;
         cbn [call] in H; rewrite bind_run, Hq' in H].
  rewrite (ExpectURI_run _ _ _ _ _ _ _ Hu Hq Hu' Hq') in H.
  exists u, q, u', q'. by repeat case_decide.
Qed.

Lemma ExpectMethod_pass request method w :
  getMethod request = method -> ExpectMethod request method w = (Return tt, w).
Proof. intros E. rewrite ExpectMethod_run. by rewrite decide_True. Qed.

(** A handler body that starts with the URI and the method check goes on
    exactly for the requests that [accepts] describes; otherwise it ends as
    a failed validation step. *)
Lemma validation_prefix request uri method (k : M unit) w :
  (accepts request uri method /\
   (ExpectURI request uri;; ExpectMethod request method;; k) w = k w) \/
  (~ accepts request uri method /\
   exists e w',
     (ExpectURI request uri;; ExpectMethod request method;; k) w = (Throw e, w') /\
     checked (A:=unit) w (Throw e, w')).
Proof.
  rewrite bind_run.
  pose proof (is_check_ExpectURI request uri w) as Hc.
  destruct (ExpectURI request uri w) as [[[]|e] w'] eqn:HU.
  - assert (w' = w) as -> by (by inversion Hc).
    apply ExpectURI_Return in HU.
    rewrite bind_run, ExpectMethod_run.
    destruct (decide (getMethod request = method)) as [E|NE].
    + left. by split.
    + right. split; [by intros [_ ?]|]. eexists _, _. split; [done|]. apply check_failed.
  - right. split.
    + intros [Hm _]. by rewrite (ExpectURI_pass _ _ w Hm) in HU.
    + eexists _, _. split; [done|]. inversion Hc; subst; constructor.
Qed.

(** ** The steps of the scripts *)

Lemma handles_reply n status chunk :
  handles n (setStatus status;; send_body chunk).
Proof. intros w1 H. apply (handled_replied n w1 status chunk H). Qed.

Lemma handles_bind_check {A} n (m : M A) (k : A -> M unit) :
  is_check m -> (forall a, handles n (k a)) -> handles n (m ≫= k).
Proof.
  intros Hm Hk w1 H. rewrite bind_run.
  destruct (Hm w1) as [a|message|what].
  - by apply Hk.
  - apply handled_failed.
  - apply handled_threw.
Qed.

Lemma handles_run n (m : M unit) w1 :
  handles n m -> 1 <= Fulfilled (this w1) <= n -> handled n w1 (m w1).
Proof. intros H. apply H. Qed.

Create HintDb script.
#[local] Hint Resolve handles_reply : script.
#[local] Hint Extern 2 (handles _ (_ ≫= _)) =>
  apply handles_bind_check; [auto with checks|intros] : script.
#[local] Hint Extern 3 (handles _ (let '(_, _) := ?p in _)) => destruct p : script.

(** After [++Fulfilled], the body of a handler dispatches on the counter. *)
Lemma count_then_dispatch (k : Z -> M unit) w :
  (incr_Fulfilled;; Fulfilled ← get_Fulfilled; k Fulfilled) w =
  k (Fulfilled (this (counted w))) (counted w).
Proof. reflexivity. Qed.

Lemma HandleOffset_handled request w :
  handled 3 (counted w) (HandleOffsetTestCase.HandleRequest request w).
Proof.
  unfold HandleOffsetTestCase.HandleRequest. rewrite count_then_dispatch.
  generalize (counted w). intros w1.
  repeat case_decide; try apply handled_failed;
    (apply handles_run; [auto 10 with script|lia]).
Qed.

Lemma GetUpdatesAndSendMessages_handled request w :
  handled 4 (counted w) (GetUpdatesAndSendMessagesTestCase.HandleRequest request w).
Proof.
  unfold GetUpdatesAndSendMessagesTestCase.HandleRequest. rewrite count_then_dispatch.
  generalize (counted w). intros w1.
  repeat case_decide; try apply handled_failed;
    (apply handles_run; [auto 20 with script|lia]).
Qed.

(** The two handlers that validate before they count. *)
Lemma SingleGetMe_handled request w :
  (accepts request "/bot123/getMe" "GET" /\
   handled 1 (counted w) (SingleGetMeTestCase.HandleRequest request w)) \/
  (~ accepts request "/bot123/getMe" "GET" /\
   exists e w',
     SingleGetMeTestCase.HandleRequest request w = (Throw e, w') /\
     checked (A:=unit) w (Throw e, w')).
Proof.
  unfold SingleGetMeTestCase.HandleRequest.
  destruct (validation_prefix request "/bot123/getMe" "GET"
    (incr_Fulfilled;; Fulfilled ← get_Fulfilled;
     if decide (Fulfilled = 1) then setStatus HTTP_OK;; send_body (Fixture GetMeJson)
     else Fail "Unexpected extra request") w) as [[Ha ->]|[Hn Hr]].
  - left. split; [done|]. rewrite count_then_dispatch.
    generalize (counted w). intros w1.
    repeat case_decide; try apply handled_failed;
      (apply handles_run; [auto with script|lia]).
  - right. by split.
Qed.

Lemma ErrorHandling_handled request w :
  (accepts request "/bot123/getMe" "GET" /\
   handled 2 (counted w) (ErrorHandlingTestCase.HandleRequest request w)) \/
  (~ accepts request "/bot123/getMe" "GET" /\
   exists e w',
     ErrorHandlingTestCase.HandleRequest request w = (Throw e, w') /\
     checked (A:=unit) w (Throw e, w')).
Proof.
  unfold ErrorHandlingTestCase.HandleRequest.
  destruct (validation_prefix request "/bot123/getMe" "GET"
    (incr_Fulfilled;; Fulfilled ← get_Fulfilled;
     if decide (Fulfilled = 1) then
       setStatus HTTP_INTERNAL_SERVER_ERROR;; send_body (Text "Internal server error")
     else if decide (Fulfilled = 2) then
       setStatus HTTP_UNAUTHORIZED;; send_body (Fixture GetMeErrorJson)
     else Fail "Unexpected extra request") w) as [[Ha ->]|[Hn Hr]].
  - left. split; [done|]. rewrite count_then_dispatch.
    generalize (counted w). intros w1.
    repeat case_decide; try apply handled_failed;
      (apply handles_run; [auto with script|lia]).
  - right. by split.
Qed.

Lemma checked_handled n w e w' :
  checked (A:=unit) w (Throw e, w') -> handled n w (Throw e, w').
Proof. inversion 1; subst; constructor. Qed.

(** Every handler, on every request: the step is chosen either in the
    world as it was or after the counter moved, and ends in one of the
    three ways. *)
Lemma HandleRequest_handled v request w :
  exists w1, (w1 = w \/ w1 = counted w) /\
             handled (steps v) w1 (HandleRequest v request w).
Proof.
  destruct v; simpl.
  - destruct (SingleGetMe_handled request w) as [[_ H]|[_ (e & w' & -> & H)]].
    + exists (counted w). by split; [right|].
    + exists w. split; [by left|]. by apply checked_handled.
  - destruct (ErrorHandling_handled request w) as [[_ H]|[_ (e & w' & -> & H)]].
    + exists (counted w). by split; [right|].
    + exists w. split; [by left|]. by apply checked_handled.
  - exists (counted w). split; [by right|]. apply GetUpdatesAndSendMessages_handled.
  - exists (counted w). split; [by right|]. apply HandleOffset_handled.
Qed.

(** ** [Check] *)

Lemma concat_lines_app (l1 l2 : list string) :
  concat_lines (l1 ++ l2) = concat_lines l1 +:+ concat_lines l2.
Proof.
  induction l1 as [|x l1 IH]; [done|].
  change (x +:+ concat_lines (l1 ++ l2) = (x +:+ concat_lines l1) +:+ concat_lines l2).
  by rewrite IH, append_assoc.
Qed.

Lemma to_size_t_int (z : Z) : 0 <= z <= INT_MAX -> to_size_t z = z.
Proof. unfold to_size_t, INT_MAX. intros H. apply Z.mod_small. lia. Qed.

Lemma int_wrap_small (z : Z) : INT_MIN <= z <= INT_MAX -> int_wrap z = z.
Proof.
  unfold int_wrap, INT_MIN, INT_MAX. intros H.
  rewrite Z.mod_small; lia.
Qed.

(** The loop over the indices [start, start + 1, ...] below the size. *)
Lemma expectations_loop (exps : list string) (k : nat) :
  forall (start : Z) (b : bool) (e : string),
    0 <= start -> start + Z.of_nat k = Z.of_nat (length exps) ->
    foldl (fun '(fail, errors) i =>
             (true, errors +:+ unsatisfied_line (exps !!! Z.to_nat i)))
          (b, e) (seqZ start (Z.of_nat k)) =
    (b || bool_decide (0 < Z.of_nat k),
     e +:+ concat_lines (unsatisfied_line <$> drop (Z.to_nat start) exps)).
Proof.
  induction k as [|k IH]; intros start b e Hs Hk.
  - rewrite seqZ_nil by lia. simpl.
    rewrite drop_ge by lia. simpl. by rewrite orb_false_r, append_empty_r.
  - rewrite seqZ_cons by lia. cbn [foldl].
    replace (Z.pred (Z.of_nat (S k))) with (Z.of_nat k) by lia.
    rewrite IH by lia.
    rewrite (bool_decide_eq_true_2 (0 < Z.of_nat (S k))) by lia.
    rewrite orb_true_r. cbn [orb]. f_equal.
    assert (exps !! Z.to_nat start = Some (exps !!! Z.to_nat start)) as Hl.
    { apply list_lookup_lookup_total_lt. lia. }
    rewrite (drop_S _ _ _ Hl). rewrite fmap_cons.
    replace (Z.to_nat (Z.succ start)) with (S (Z.to_nat start)) by lia.
    change (concat_lines (?x :: ?l)) with (x +:+ concat_lines l).
    by rewrite append_assoc.
Qed.

Lemma Check_expectations_run (tc : TestCase) (b : bool) (e : string) :
  0 <= Fulfilled tc <= INT_MAX ->
  Check_expectations tc (b, e) =
  (b || bool_decide (Fulfilled tc < Z.of_nat (length (Expectations tc))),
   e +:+ concat_lines
           (unsatisfied_line <$> drop (Z.to_nat (Fulfilled tc)) (Expectations tc))).
Proof.
  intros HF. unfold Check_expectations. rewrite to_size_t_int by done.
  destruct (decide (Fulfilled tc < Z.of_nat (length (Expectations tc)))) as [Hlt|Hge].
  - rewrite bool_decide_eq_true_2 by done.
    pose proof (expectations_loop (Expectations tc)
      (Z.to_nat (Z.of_nat (length (Expectations tc)) - Fulfilled tc))
      (Fulfilled tc) b e) as H.
    rewrite Z2Nat.id in H by lia. rewrite H by lia.
    by rewrite bool_decide_eq_true_2 by lia.
  - rewrite bool_decide_eq_false_2 by done.
    rewrite seqZ_nil by lia. rewrite drop_ge by lia. simpl.
    by rewrite orb_false_r, append_empty_r.
Qed.

Lemma fails_loop (fails : list string) :
  forall (b : bool) (e : string),
    foldl (fun '(fail, errors) error => (true, errors +:+ error_line error))
          (b, e) fails =
    (b || bool_decide (fails <> []), e +:+ concat_lines (error_line <$> fails)).
Proof.
  induction fails as [|x fails IH]; intros b e.
  - simpl. by rewrite orb_false_r, append_empty_r.
  - cbn [foldl]. rewrite IH. rewrite orb_true_r. f_equal.
    rewrite fmap_cons.
    change (concat_lines (?y :: ?l)) with (y +:+ concat_lines l).
    by rewrite append_assoc.
Qed.

(** [Check] in closed form. *)
Lemma Check_run (tc : TestCase) :
  0 <= Fulfilled tc <= INT_MAX ->
  Check tc =
  if decide (Fulfilled tc < Z.of_nat (length (Expectations tc)) \/ Fails tc <> [])
  then Raise (report tc) else Ok tt.
Proof.
  intros HF. unfold Check, Check_fails.
  rewrite Check_expectations_run by done. rewrite fails_loop.
  unfold report. rewrite concat_lines_app. simpl.
  destruct (decide (Fulfilled tc < Z.of_nat (length (Expectations tc)))) as [Hlt|Hge].
  - rewrite (bool_decide_eq_true_2 _ Hlt). simpl. rewrite decide_True by (by left). done.
  - rewrite (bool_decide_eq_false_2 _ Hge). simpl.
    destruct (decide (Fails tc = [])) as [E|NE].
    + rewrite bool_decide_eq_false_2 by (by intros ?).
      rewrite decide_False; [done|]. intros [|]; done.
    + rewrite bool_decide_eq_true_2 by done. by rewrite decide_True by (by right).
Qed.

(** A recorded failure makes [Check] throw, whatever the counter. *)
Lemma Check_raises_of_Fails (tc : TestCase) :
  Fails tc <> [] -> raises (Check tc) = true.
Proof.
  intros NE. unfold Check, Check_fails.
  destruct (Check_expectations tc (false, EmptyString)) as [b e].
  rewrite fails_loop. rewrite bool_decide_eq_true_2 by done.
  by rewrite orb_true_r.
Qed.

(** ** The request handler *)

Lemma handleRequest_Return v request w w' :
  HandleRequest v request w = (Return tt, w') ->
  handleRequest v request w = (Return tt, w').
Proof. intros H. unfold handleRequest, try_catch. by rewrite H. Qed.

Lemma handleRequest_CheckFailed v request w w' :
  HandleRequest v request w = (Throw CheckFailedException, w') ->
  handleRequest v request w =
  (Return tt,
   mkWorld (this w') (mkResponse HTTP_BAD_REQUEST true (body (response w')))).
Proof. intros H. unfold handleRequest, try_catch. by rewrite H. Qed.

Lemma handleRequest_std_exception v request w what w' :
  HandleRequest v request w = (Throw (std_exception what), w') ->
  handleRequest v request w = (Throw CheckFailedException, failed what w').
Proof. intros H. unfold handleRequest, try_catch. by rewrite H. Qed.

(** The test case after one exchange: the expectations are as before, and
    either nothing was recorded and the counter is within the script, or
    exactly one failure was appended. *)
Lemma serve_outcome v request tc :
  let tc' := this (serve v request tc).2 in
  Expectations tc' = Expectations tc /\
  ((Fails tc' = Fails tc /\ 1 <= Fulfilled tc' <= steps v) \/
   exists message, Fails tc' = (Fails tc ++ [message])%list).
Proof.
  unfold serve.
  destruct (HandleRequest_handled v request (mkWorld tc fresh_response))
    as (w1 & Hw1 & H).
  assert (Expectations (this w1) = Expectations tc /\ Fails (this w1) = Fails tc)
    as [HE HF] by (by destruct Hw1 as [->| ->]).
  inversion H as [status chunk Hb Heq|message Heq|what Heq]; symmetry in Heq.
  - rewrite (handleRequest_Return _ _ _ _ Heq). simpl. split; [done|]. by left.
  - rewrite (handleRequest_CheckFailed _ _ _ _ Heq). simpl. split; [done|].
    right. exists message. by rewrite HF.
  - rewrite (handleRequest_std_exception _ _ _ _ _ Heq). simpl. split; [done|].
    right. exists what. by rewrite HF.
Qed.

Lemma serve_all_snoc v rs request tc :
  serve_all v (rs ++ [request]) tc =
  this (serve v request (serve_all v rs tc)).2.
Proof. unfold serve_all. by rewrite foldl_app. Qed.

Lemma serve_all_Expectations v rs tc :
  Expectations (serve_all v rs tc) = Expectations tc.
Proof.
  induction rs as [|request rs IH] using rev_ind; [done|].
  rewrite serve_all_snoc.
  destruct (serve_outcome v request (serve_all v rs tc)) as [-> _]. done.
Qed.

Lemma serve_all_Fails_prefix v rs tc :
  Fails tc `prefix_of` Fails (serve_all v rs tc).
Proof.
  induction rs as [|request rs IH] using rev_ind; [done|].
  rewrite serve_all_snoc.
  destruct (serve_outcome v request (serve_all v rs tc)) as [_ [[-> _]|[m ->]]].
  - done.
  - by apply prefix_app_r.
Qed.

(** As long as nothing is recorded, the counter stays within the script. *)
Lemma serve_all_within_script v rs tc :
  (Fails tc = [] -> 0 <= Fulfilled tc <= steps v) ->
  Fails (serve_all v rs tc) = [] ->
  0 <= Fulfilled (serve_all v rs tc) <= steps v.
Proof.
  intros Htc. induction rs as [|request rs IH] using rev_ind; [done|].
  rewrite serve_all_snoc.
  destruct (serve_outcome v request (serve_all v rs tc)) as [_ [[_ Hb]|[m ->]]].
  - intros _. lia.
  - intros H. by apply app_nil in H as [_ ?].
Qed.

Lemma steps_small v : 0 <= steps v <= 4.
Proof. destruct v; vm_compute; split; discriminate. Qed.

(** The counter after one exchange: as it was, or moved by one. *)
Lemma handled_Fulfilled n w1 r w' :
  handled n w1 (r, w') -> Fulfilled (this w') = Fulfilled (this w1).
Proof. inversion 1; subst; done. Qed.

Lemma checked_Fulfilled {A} w (r : result A) w' :
  checked w (r, w') -> Fulfilled (this w') = Fulfilled (this w).
Proof. inversion 1; subst; done. Qed.

Lemma serve_Fulfilled v request tc :
  Fulfilled (this (serve v request tc).2) = Fulfilled tc \/
  Fulfilled (this (serve v request tc).2) = int_wrap (Fulfilled tc + 1).
Proof.
  unfold serve.
  destruct (HandleRequest_handled v request (mkWorld tc fresh_response))
    as (w1 & Hw1 & H).
  assert (Fulfilled (this w1) = Fulfilled tc \/
          Fulfilled (this w1) = int_wrap (Fulfilled tc + 1)) as HF.
  { destruct Hw1 as [->| ->]; [by left|by right]. }
  inversion H as [status chunk Hb Heq|message Heq|what Heq]; symmetry in Heq.
  - by rewrite (handleRequest_Return _ _ _ _ Heq).
  - by rewrite (handleRequest_CheckFailed _ _ _ _ Heq).
  - by rewrite (handleRequest_std_exception _ _ _ _ _ Heq).
Qed.

(** The counter of a test case that has served [rs] since its construction
    is between 0 and the number of requests: the states that [Check] meets
    in a test run have a counter that is no negative [int]. *)
Lemma serve_all_Fulfilled_bounds v rs :
  Z.of_nat (length rs) <= INT_MAX ->
  0 <= Fulfilled (serve_all v rs (new v)) <= Z.of_nat (length rs).
Proof.
  induction rs as [|request rs IH] using rev_ind; intros Hlen.
  - by destruct v.
  - rewrite length_app in Hlen. simpl in Hlen.
    rewrite serve_all_snoc, length_app. simpl.
    destruct (serve_Fulfilled v request (serve_all v rs (new v))) as [-> | ->].
    + lia.
    + rewrite int_wrap_small; unfold INT_MIN, INT_MAX in *; lia.
Qed.

(** ** The scripts, run *)

Example ErrorHandling_run :
  let tc1 := mkTestCase (Expectations (new ErrorHandling)) 1 [] in
  let tc2 := mkTestCase (Expectations (new ErrorHandling)) 2 [] in
  serve ErrorHandling (get "/bot123/getMe") (new ErrorHandling) =
    (Return tt, mkWorld tc1 (mkResponse HTTP_INTERNAL_SERVER_ERROR true
                                        [Text "Internal server error"])) /\
  serve ErrorHandling (get "/bot123/getMe") tc1 =
    (Return tt, mkWorld tc2 (mkResponse HTTP_UNAUTHORIZED true
                                        [Fixture GetMeErrorJson])) /\
  Check tc2 = Ok tt.
Proof. repeat split. Qed.

Example GetUpdatesAndSendMessages_run :
  Check (serve_all GetUpdatesAndSendMessages
           [get "/bot123/getUpdates";
            sendMessage 104519755 "Hi!" None;
            sendMessage 104519755 "Reply" (Some 2);
            sendMessage 104519755 "Reply" (Some 2)]
           (new GetUpdatesAndSendMessages)) = Ok tt.
Proof. vm_compute. reflexivity. Qed.

Example GetUpdatesAndSendMessages_wrong_reply :
  Fails (serve_all GetUpdatesAndSendMessages
           [get "/bot123/getUpdates";
            sendMessage 104519755 "Hi!" None;
            sendMessage 104519755 "Reply" None]
           (new GetUpdatesAndSendMessages)) =
  ["reply_to_message_id field is incorrect"].
Proof. vm_compute. reflexivity. Qed.

Example missing_Content_Type_is_not_a_validation_failure :
  serve GetUpdatesAndSendMessages
        (mkRequest "POST" "/bot123/sendMessage" [] (Raise "no body"))
        after_getUpdates =
  (Throw CheckFailedException,
   mkWorld (mkTestCase (Expectations (new GetUpdatesAndSendMessages)) 2 ["Not found"])
           fresh_response).
Proof. reflexivity. Qed.

Example FakeServer_names :
  FakeServer "Handle getUpdates offset" = Ok (HandleOffset, new HandleOffset) /\
  FakeServer "getMe" = Raise "Unknown test case name getMe".
Proof. split; reflexivity. Qed.

(** ** The claims of the specification *)

(** C1, refuted as stated: the handler of "Single getMe" checks the URI and
    the method before it counts.  A [POST /bot123/getMe] sent to the new
    test case records the method failure and leaves the counter at 0, in
    [HandleRequest] and after the whole exchange. *)
Lemma SingleGetMe_rejected_request_not_counted :
  HandleRequest SingleGetMe post_getMe (mkWorld (new SingleGetMe) fresh_response) =
    (Throw CheckFailedException,
     mkWorld (mkTestCase (Expectations (new SingleGetMe)) 0
                         ["Invalid method: expected GET, got POST"])
             fresh_response) /\
  Fulfilled (this (serve SingleGetMe post_getMe (new SingleGetMe)).2) = 0.
Proof. split; reflexivity. Qed.

(** C1, amended: as long as the counter is below [INT_MAX], the handlers of
    "Single getUpdates and send messages" and "Handle getUpdates offset"
    move the counter by exactly one on every request, whatever the outcome
    of the checks that follow; the handlers of "Single getMe" and "getMe
    error handling" check the URI and the method first, and move the
    counter by exactly one for a [GET /bot123/getMe] and leave it as it was
    for any other request. *)
Theorem HandleRequest_counter v request w :
  INT_MIN <= Fulfilled (this w) < INT_MAX ->
  let counter' := Fulfilled (this (HandleRequest v request w).2) in
  match v with
  | GetUpdatesAndSendMessages | HandleOffset =>
      counter' = Fulfilled (this w) + 1
  | SingleGetMe | ErrorHandling =>
      (accepts request "/bot123/getMe" "GET" /\ counter' = Fulfilled (this w) + 1) \/
      (~ accepts request "/bot123/getMe" "GET" /\ counter' = Fulfilled (this w))
  end.
Proof.
  intros HF.
  assert (Fulfilled (this (counted w)) = Fulfilled (this w) + 1) as Hc.
  { simpl. apply int_wrap_small. unfold INT_MIN, INT_MAX in *. lia. }
  destruct v; simpl.
  - destruct (SingleGetMe_handled request w) as [[Ha H]|[Hn (e & w' & Hr & H)]].
    + left. split; [done|].
      destruct (SingleGetMeTestCase.HandleRequest request w) as [r w'].
      simpl. by rewrite (handled_Fulfilled _ _ _ _ H).
    + right. split; [done|]. rewrite Hr. simpl.
      by rewrite (checked_Fulfilled _ _ _ H).
  - destruct (ErrorHandling_handled request w) as [[Ha H]|[Hn (e & w' & Hr & H)]].
    + left. split; [done|].
      destruct (ErrorHandlingTestCase.HandleRequest request w) as [r w'].
      simpl. by rewrite (handled_Fulfilled _ _ _ _ H).
    + right. split; [done|]. rewrite Hr. simpl.
      by rewrite (checked_Fulfilled _ _ _ H).
  - pose proof (GetUpdatesAndSendMessages_handled request w) as H.
    destruct (GetUpdatesAndSendMessagesTestCase.HandleRequest request w) as [r w'].
    simpl. by rewrite (handled_Fulfilled _ _ _ _ H).
  - pose proof (HandleOffset_handled request w) as H.
    destruct (HandleOffsetTestCase.HandleRequest request w) as [r w'].
    simpl. by rewrite (handled_Fulfilled _ _ _ _ H).
Qed.

(** A request that fails the method check of "Handle getUpdates offset" is
    counted all the same. *)
Lemma HandleRequest_counter_witness :
  Fulfilled (this (HandleRequest HandleOffset post_getMe
                     (mkWorld (new HandleOffset) fresh_response)).2) =
  Fulfilled (new HandleOffset) + 1.
Proof.
  apply (HandleRequest_counter HandleOffset post_getMe
           (mkWorld (new HandleOffset) fresh_response)).
  unfold INT_MIN, INT_MAX. simpl. lia.
Defined.

(** A line of a list of lines occurs in their concatenation. *)
Lemma contains_concat_lines (line : string) (lines : list string) :
  line ∈ lines -> contains line (concat_lines lines) = true.
Proof.
  induction 1 as [line lines|line other lines _ IH].
  - change (contains line (line +:+ concat_lines lines) = true).
    apply contains_prefix, prefix_append.
  - change (contains line (other +:+ concat_lines lines) = true).
    by apply contains_append_l.
Qed.

(** C2: for a counter that is no negative [int], [Check] throws if and only
    if the counter is less than the number of expectations or a failure is
    recorded.  The report it throws is, for each expectation from the index
    of the counter on, in order, the line "Expectation not satisfied: "
    followed by the description of the expectation and a line feed, and
    then, for each recorded failure, in order, the line
    "Error encountered: " followed by the message of the failure and a line
    feed;
    so the line of each such expectation and of each failure occurs in the
    report. *)
Theorem Check_raises_iff (tc : TestCase) :
  0 <= Fulfilled tc <= INT_MAX ->
  let line_feed := String (ascii_of_nat 10) EmptyString in
  let text :=
    concat_lines
      (((fun description =>
           "Expectation not satisfied: " +:+ description +:+ line_feed) <$>
          drop (Z.to_nat (Fulfilled tc)) (Expectations tc)) ++
       ((fun message => "Error encountered: " +:+ message +:+ line_feed) <$>
          Fails tc)) in
  (raises (Check tc) = true <->
   Fulfilled tc < Z.of_nat (length (Expectations tc)) \/ Fails tc <> []) /\
  (raises (Check tc) = true -> Check tc = Raise text) /\
  (forall (i : nat) description,
     Expectations tc !! i = Some description -> Fulfilled tc <= Z.of_nat i ->
     Check tc = Raise text /\
     contains ("Expectation not satisfied: " +:+ description +:+ line_feed) text
       = true) /\
  (forall message,
     message ∈ Fails tc ->
     Check tc = Raise text /\
     contains ("Error encountered: " +:+ message +:+ line_feed) text = true).
Proof.
  intros HF line_feed text. rewrite (Check_run tc HF).
  change (report tc) with text.
  split; [|split; [|split]].
  - case_decide as H; simpl; split; done.
  - by case_decide.
  - intros i description Hi Hle. split.
    + rewrite decide_True; [done|]. left.
      apply lookup_lt_Some in Hi. lia.
    + apply contains_concat_lines, elem_of_app. left.
      apply (list_elem_of_fmap_2
               (fun description =>
                  "Expectation not satisfied: " +:+ description +:+ line_feed)).
      apply (list_elem_of_lookup_2 _ (i - Z.to_nat (Fulfilled tc))).
      rewrite lookup_drop. by replace (_ + _)%nat with i by lia.
  - intros message Hm. split.
    + rewrite decide_True; [done|]. right. intros E. rewrite E in Hm.
      by apply elem_of_nil in Hm.
    + apply contains_concat_lines, elem_of_app. right.
      by apply (list_elem_of_fmap_2
                  (fun message => "Error encountered: " +:+ message +:+ line_feed)).
Qed.

(** With three expectations, the counter at 1 and one failure, the report
    is the lines of the second and of the third expectation and then the
    line of the failure. *)
Lemma Check_raises_iff_witness :
  let line_feed := String (ascii_of_nat 10) EmptyString in
  Check (mkTestCase ["first"; "second"; "third"] 1 ["boom"]) =
  Raise ("Expectation not satisfied: second" +:+ line_feed +:+
         "Expectation not satisfied: third" +:+ line_feed +:+
         "Error encountered: boom" +:+ line_feed).
Proof.
  intros line_feed.
  apply (proj1 (proj2 (Check_raises_iff
           (mkTestCase ["first"; "second"; "third"] 1 ["boom"])
           ltac:(unfold INT_MAX; simpl; lia)))).
  reflexivity.
Defined.

(** C3: when [HandleRequest] is left by the [CheckFailedException] of a
    call of [Fail], the failure list is the one before the request with one
    message appended, and the handler returns normally with status 400,
    the header sent and no body. *)
Theorem validation_failure_answered_400 v request tc w' :
  HandleRequest v request (mkWorld tc fresh_response) =
    (Throw CheckFailedException, w') ->
  (exists message, Fails (this w') = (Fails tc ++ [message])%list) /\
  serve v request tc =
    (Return tt, mkWorld (this w') (mkResponse HTTP_BAD_REQUEST true [])).
Proof.
  intros H. unfold serve. rewrite (handleRequest_CheckFailed _ _ _ _ H).
  destruct (HandleRequest_handled v request (mkWorld tc fresh_response))
    as (w1 & Hw1 & Hh).
  rewrite H in Hh. inversion Hh as [| message Heq |]; subst w'.
  split.
  - exists message. by destruct Hw1 as [->| ->].
  - by destruct Hw1 as [->| ->].
Qed.

Lemma validation_failure_answered_400_witness :
  (exists message,
     Fails (this (failed "Invalid method: expected GET, got POST"
                    (mkWorld (new SingleGetMe) fresh_response))) =
     (Fails (new SingleGetMe) ++ [message])%list) /\
  serve SingleGetMe post_getMe (new SingleGetMe) =
    (Return tt,
     mkWorld (this (failed "Invalid method: expected GET, got POST"
                      (mkWorld (new SingleGetMe) fresh_response)))
             (mkResponse HTTP_BAD_REQUEST true [])).
Proof.
  apply (validation_failure_answered_400 SingleGetMe post_getMe (new SingleGetMe)).
  reflexivity.
Defined.

(** C4: if the URI of a second request is the URI of the first with its
    query pairs in another order, and a second expected URI is the first
    with its query pairs in another order, [ExpectURI] ends in the same way
    on both: it returns on both, or it throws on both after it recorded
    the same message. *)
Theorem ExpectURI_query_order request request' uri uri' w :
  reordered (getURI request) (getURI request') ->
  reordered uri uri' ->
  ExpectURI request uri w = ExpectURI request' uri' w.
Proof.
  intros (a & qa & a' & qa' & Ha & Hqa & Ha' & Hqa' & Hah & Hap & Haq).
  intros (e & qe & e' & qe' & He & Hqe & He' & Hqe' & Heh & Hep & Heq).
  rewrite (ExpectURI_run _ _ _ _ _ _ w Ha Hqa He Hqe).
  rewrite (ExpectURI_run _ _ _ _ _ _ w Ha' Hqa' He' Hqe').
  rewrite <-Hah, <-Hap, <-Heh, <-Hep.
  destruct (decide (getHost a ≠ getHost e)); [done|].
  destruct (decide (getPath a ≠ getPath e)); [done|].
  destruct (decide (qa ≡ₚ qe)) as [Hp|Hp].
  - rewrite decide_True; [done|]. by rewrite <-Haq, <-Heq.
  - rewrite decide_False; [done|]. intros Hp'. apply Hp. by rewrite Haq, Heq.
Qed.

(** The example of the specification: [x=1&y=2] against [y=2&x=1]. *)
Lemma ExpectURI_query_order_witness :
  ExpectURI (get "/bot123/getMe?x=1&y=2") "/bot123/getMe?x=1&y=2"
            (mkWorld (new SingleGetMe) fresh_response) =
  ExpectURI (get "/bot123/getMe?y=2&x=1") "/bot123/getMe?x=1&y=2"
            (mkWorld (new SingleGetMe) fresh_response).
Proof.
  apply (ExpectURI_query_order (get "/bot123/getMe?x=1&y=2")
                               (get "/bot123/getMe?y=2&x=1")).
  - eexists _, _, _, _. repeat split; try reflexivity. simpl. apply Permutation_swap.
  - eexists _, _, _, _. repeat split; try reflexivity.
Defined.

(** Duplicates count: a pair given twice does not match the pair given
    once. *)
Example duplicate_query_pairs_are_distinct :
  ExpectURI (get "/bot123/getMe?x=1&x=1") "/bot123/getMe?x=1"
            (mkWorld (new SingleGetMe) fresh_response) =
  (Throw CheckFailedException,
   failed "Invalid Query params" (mkWorld (new SingleGetMe) fresh_response)).
Proof. reflexivity. Qed.

(** C5: on every test case, after any sequence of exchanges since its
    construction, if [Check] returns then the counter is the number of
    expectations. *)
Theorem Check_passes_counter_is_length v rs :
  Check (serve_all v rs (new v)) = Ok tt ->
  Fulfilled (serve_all v rs (new v)) =
  Z.of_nat (length (Expectations (serve_all v rs (new v)))).
Proof.
  intros HC.
  assert (Fails (serve_all v rs (new v)) = []) as HF.
  { destruct (decide (Fails (serve_all v rs (new v)) = [])) as [|NE]; [done|].
    apply Check_raises_of_Fails in NE. by rewrite HC in NE. }
  pose proof (steps_small v) as Hs.
  assert (0 <= Fulfilled (serve_all v rs (new v)) <= steps v) as Hb.
  { apply serve_all_within_script; [|done]. intros _. destruct v; simpl; lia. }
  rewrite Check_run in HC by (unfold INT_MAX; lia).
  rewrite serve_all_Expectations in *. fold (steps v).
  case_decide as Hd; [done|].
  destruct (decide (Fulfilled (serve_all v rs (new v)) < steps v)) as [Hlt|Hge].
  - destruct Hd. by left.
  - lia.
Qed.

Lemma Check_passes_counter_is_length_witness :
  Fulfilled (serve_all SingleGetMe [get "/bot123/getMe"] (new SingleGetMe)) =
  Z.of_nat (length (Expectations
                      (serve_all SingleGetMe [get "/bot123/getMe"] (new SingleGetMe)))).
Proof.
  apply (Check_passes_counter_is_length SingleGetMe [get "/bot123/getMe"]).
  reflexivity.
Defined.

(** C6: when [HandleRequest] is left by an exception that is not a
    [CheckFailedException], the handler appends the text of the exception
    to the failure list and an exception leaves the handler; the response
    is as it was handed in, status 200 and nothing sent, not a 400.  The
    exception that leaves the handler is the [CheckFailedException] of the
    call of [Fail] that recorded the text. *)
Theorem unexpected_failure_recorded_and_propagated v request tc what w' :
  HandleRequest v request (mkWorld tc fresh_response) =
    (Throw (std_exception what), w') ->
  serve v request tc = (Throw CheckFailedException, failed what w') /\
  Fails (this (failed what w')) = (Fails tc ++ [what])%list /\
  response (failed what w') = fresh_response.
Proof.
  intros H. unfold serve. rewrite (handleRequest_std_exception _ _ _ _ _ H).
  destruct (HandleRequest_handled v request (mkWorld tc fresh_response))
    as (w1 & Hw1 & Hh).
  rewrite H in Hh. inversion Hh as [| | what' Heq]; subst.
  by destruct Hw1 as [->| ->].
Qed.

(** The example of the specification: a body that does not parse as JSON,
    in the step of the script that reads a message. *)
Lemma unexpected_failure_recorded_and_propagated_witness :
  let w' := mkWorld (mkTestCase (Expectations (new GetUpdatesAndSendMessages)) 2 [])
                    fresh_response in
  serve GetUpdatesAndSendMessages bad_json after_getUpdates =
    (Throw CheckFailedException, failed "JSON Exception" w') /\
  Fails (this (failed "JSON Exception" w')) =
    (Fails after_getUpdates ++ ["JSON Exception"])%list /\
  response (failed "JSON Exception" w') = fresh_response.
Proof.
  apply (unexpected_failure_recorded_and_propagated
           GetUpdatesAndSendMessages bad_json after_getUpdates).
  reflexivity.
Defined.

(** C7: on the new "Single getMe" test case, a [GET /bot123/getMe], with
    any headers and body, is answered with status 200 and the fixture
    [GetMeJson]; the same request once more records "Unexpected extra
    request" and is answered with status 400 and no body; [Check] then
    throws, and its report is the line of that failure. *)
Theorem Single_getMe_scenario hs body :
  let request := mkRequest "GET" "/bot123/getMe" hs body in
  let tc1 := mkTestCase (Expectations (new SingleGetMe)) 1 [] in
  let tc2 :=
    mkTestCase (Expectations (new SingleGetMe)) 2 ["Unexpected extra request"] in
  serve SingleGetMe request (new SingleGetMe) =
    (Return tt, mkWorld tc1 (mkResponse HTTP_OK true [Fixture GetMeJson])) /\
  serve SingleGetMe request tc1 =
    (Return tt, mkWorld tc2 (mkResponse HTTP_BAD_REQUEST true [])) /\
  Check tc2 = Raise (error_line "Unexpected extra request").
Proof. repeat split. Qed.

(** *** The pagination script *)

Lemma accepts_literal request uri u' path params :
  URI_parse uri = Ok u' -> getQueryParameters u' = Ok params ->
  getHost u' = "" -> getPath u' = path ->
  accepts request uri "GET" <-> carries request path params.
Proof.
  intros Hu' Hq' Hh Hp. unfold accepts, carries, uri_matches. split.
  - intros [(u & q & u'' & q'' & Hu & Hq & Hu'' & Hq'' & ? & ? & ?) Hm].
    split; [done|]. exists u, q.
    rewrite Hu' in Hu''. injection Hu'' as <-.
    rewrite Hq' in Hq''. injection Hq'' as <-.
    repeat split; congruence.
  - intros [Hm (u & q & Hu & Hq & ? & ? & ?)]. split; [|done].
    exists u, q, u', params. repeat split; congruence.
Qed.

(** One step of the script of [HandleOffsetTestCase], in a world whose
    counter has just been moved: what is sent for an accepted request, and
    how the step ends otherwise. *)
Lemma offset_step uri fixture request w :
  let m := (ExpectURI request uri;; ExpectMethod request "GET";;
            setStatus HTTP_OK;; send_body (Fixture fixture)) in
  (accepts request uri "GET" /\
   m w = (Return tt, replied HTTP_OK (Fixture fixture) w)) \/
  (~ accepts request uri "GET" /\
   exists e w', m w = (Throw e, w') /\ checked (A:=unit) w (Throw e, w')).
Proof.
  intros m. unfold m.
  destruct (validation_prefix request uri "GET"
              (setStatus HTTP_OK;; send_body (Fixture fixture)) w)
    as [[Ha ->]|[Hn Hr]]; [left|right]; done.
Qed.

Lemma offset_step_answers uri path params fixture request tc u' :
  URI_parse uri = Ok u' -> getQueryParameters u' = Ok params ->
  getHost u' = "" -> getPath u' = path ->
  0 <= Fulfilled tc <= 2 ->
  HandleRequest HandleOffset request (mkWorld tc fresh_response) =
    (ExpectURI request uri;; ExpectMethod request "GET";;
     setStatus HTTP_OK;; send_body (Fixture fixture))
      (counted (mkWorld tc fresh_response)) ->
  answers tc request path params fixture.
Proof.
  intros Hu' Hq' Hh Hp HF Hrun.
  assert (int_wrap (Fulfilled tc + 1) = Fulfilled tc + 1) as Hw.
  { apply int_wrap_small. unfold INT_MIN, INT_MAX. lia. }
  pose proof (accepts_literal request uri u' path params Hu' Hq' Hh Hp) as Hiff.
  destruct (offset_step uri fixture request (counted (mkWorld tc fresh_response)))
    as [[Ha Hm]|[Hn (e & w' & Hm & Hc)]]; rewrite Hm in Hrun; split.
  - intros _. unfold serve. rewrite (handleRequest_Return _ _ _ _ Hrun).
    unfold replied, counted. simpl. by rewrite Hw.
  - intros Hn. by apply Hiff in Ha.
  - intros Hcar. by apply Hiff in Hcar.
  - intros _. unfold serve. inversion Hc as [|message Heq|what Heq]; subst.
    + rewrite (handleRequest_CheckFailed _ _ _ _ Hrun). by exists message.
    + rewrite (handleRequest_std_exception _ _ _ _ _ Hrun). by exists what.
Qed.

Lemma counted_Fulfilled tc k :
  Fulfilled tc = k - 1 -> 1 <= k <= 3 ->
  Fulfilled (this (counted (mkWorld tc fresh_response))) = k.
Proof.
  intros HF Hk. cbn [counted Fulfilled this]. rewrite HF.
  replace (k - 1 + 1) with k by lia. apply int_wrap_small.
  unfold INT_MIN, INT_MAX. lia.
Qed.

Ltac offset_step_of k uri :=
  intros HF;
  eapply (offset_step_answers uri);
    [reflexivity|reflexivity|reflexivity|reflexivity|lia|];
  match goal with
  | |- context [HandleRequest HandleOffset ?request ?w] =>
      change (HandleRequest HandleOffset request w)
        with (HandleOffsetTestCase.HandleRequest request w)
  end;
  unfold HandleOffsetTestCase.HandleRequest; rewrite count_then_dispatch;
  match goal with
  | |- context [counted (mkWorld ?tc _)] =>
      rewrite (counted_Fulfilled tc k) by (done || lia)
  end;
  repeat (rewrite decide_False by done); by rewrite decide_True.

Lemma HandleOffset_step1 request tc :
  Fulfilled tc = 0 ->
  answers tc request "/bot123/getUpdates" [("timeout", "5")] GetUpdatesTwoMessages.
Proof. offset_step_of 1 "/bot123/getUpdates?timeout=5". Qed.

Lemma HandleOffset_step2 request tc :
  Fulfilled tc = 1 ->
  answers tc request "/bot123/getUpdates"
          [("offset", "851793508"); ("timeout", "5")] GetUpdatesZeroMessages.
Proof. offset_step_of 2 "/bot123/getUpdates?offset=851793508&timeout=5". Qed.

Lemma HandleOffset_step3 request tc :
  Fulfilled tc = 2 ->
  answers tc request "/bot123/getUpdates"
          [("offset", "851793508"); ("timeout", "5")] GetupdatesOneMessage.
Proof. offset_step_of 3 "/bot123/getUpdates?offset=851793508&timeout=5". Qed.

(** C8: in "Handle getUpdates offset", the request served at counter 0 is
    answered with status 200 and the two-message fixture exactly when it is
    a [GET] of [/bot123/getUpdates] with the one query parameter
    [timeout=5]; the requests served at counters 1 and 2 are answered with
    the zero-message and the one-message fixture exactly when they are a
    [GET] of that path with the parameters [offset=851793508] and
    [timeout=5], in any order; any other request has one failure recorded
    and gets no body, in particular one whose parameters do not include
    [offset=851793508]; and after three such requests in that order on the
    new test case, [Check] returns. *)
Theorem pagination_script :
  (forall request tc, Fulfilled tc = 0 ->
     answers tc request "/bot123/getUpdates" [("timeout", "5")]
             GetUpdatesTwoMessages) /\
  (forall request tc, Fulfilled tc = 1 ->
     answers tc request "/bot123/getUpdates"
             [("offset", "851793508"); ("timeout", "5")] GetUpdatesZeroMessages) /\
  (forall request tc, Fulfilled tc = 2 ->
     answers tc request "/bot123/getUpdates"
             [("offset", "851793508"); ("timeout", "5")] GetupdatesOneMessage) /\
  (forall request u q,
     URI_parse (getURI request) = Ok u -> getQueryParameters u = Ok q ->
     ("offset", "851793508") ∉ q ->
     ~ carries request "/bot123/getUpdates"
         [("offset", "851793508"); ("timeout", "5")]) /\
  (forall r1 r2 r3,
     carries r1 "/bot123/getUpdates" [("timeout", "5")] ->
     carries r2 "/bot123/getUpdates" [("offset", "851793508"); ("timeout", "5")] ->
     carries r3 "/bot123/getUpdates" [("offset", "851793508"); ("timeout", "5")] ->
     Check (serve_all HandleOffset [r1; r2; r3] (new HandleOffset)) = Ok tt).
Proof.
  split; [exact HandleOffset_step1|]. split; [exact HandleOffset_step2|].
  split; [exact HandleOffset_step3|]. split.
  - intros request u q Hu Hq Hnot [_ (u2 & q2 & Hu2 & Hq2 & _ & _ & Hperm)].
    rewrite Hu in Hu2. injection Hu2 as <-. rewrite Hq in Hq2. injection Hq2 as <-.
    apply Hnot. rewrite Hperm. apply list_elem_of_here.
  - intros r1 r2 r3 C1 C2 C3. unfold serve_all. cbn [foldl].
    destruct (HandleOffset_step1 r1 (new HandleOffset) eq_refl) as [E1 _].
    rewrite E1 by done. cbn [snd this].
    destruct (HandleOffset_step2 r2
                (mkTestCase (Expectations (new HandleOffset)) (0 + 1) []) eq_refl)
      as [E2 _].
    cbn [Expectations Fulfilled Fails new HandleOffsetTestCase.new] in *.
    rewrite E2 by done. cbn [snd this].
    destruct (HandleOffset_step3 r3
                (mkTestCase (Expectations (new HandleOffset)) (0 + 1 + 1) []) eq_refl)
      as [E3 _].
    cbn [Expectations Fulfilled Fails new HandleOffsetTestCase.new] in *.
    rewrite E3 by done. reflexivity.
Qed.

Lemma pagination_script_witness :
  Check (serve_all HandleOffset
           [get "/bot123/getUpdates?timeout=5";
            get "/bot123/getUpdates?offset=851793508&timeout=5";
            get "/bot123/getUpdates?timeout=5&offset=851793508"]
           (new HandleOffset)) = Ok tt.
Proof.
  apply (proj2 (proj2 (proj2 (proj2 pagination_script)))).
  - split; [reflexivity|]. eexists _, _. repeat split; reflexivity.
  - split; [reflexivity|]. eexists _, _. repeat split; reflexivity.
  - split; [reflexivity|]. eexists _, _. repeat split; try reflexivity.
    apply Permutation_swap.
Defined.

(** *** The failure messages of the matcher *)

Lemma contains_refl (x : string) : contains x x = true.
Proof.
  apply contains_prefix. rewrite <-(append_empty_r x) at 2. apply prefix_append.
Qed.

(** C9, refuted as stated: a request with [offset=1] where
    [offset=851793508] is expected fails [ExpectURI] with the message
    "Invalid Query params", in which neither value occurs, nor the key. *)
Lemma query_mismatch_message_names_no_value :
  ExpectURI (get "/bot123/getUpdates?offset=1&timeout=5")
            "/bot123/getUpdates?offset=851793508&timeout=5"
            (mkWorld (new HandleOffset) fresh_response) =
    (Throw CheckFailedException,
     failed "Invalid Query params" (mkWorld (new HandleOffset) fresh_response)) /\
  contains "851793508" "Invalid Query params" = false /\
  contains "1" "Invalid Query params" = false /\
  contains "offset" "Invalid Query params" = false.
Proof. repeat split. Qed.

(** C9, amended: when both URIs parse, a host mismatch is recorded with a
    message in which the expected and the actual host occur, a path
    mismatch (the hosts being equal) with a message in which the expected
    and the actual path occur, and a method mismatch with a message in
    which the expected and the actual method occur; a mismatch of the query
    parameters (host and path being equal) is recorded with the fixed
    message "Invalid Query params". *)
Theorem mismatch_messages request uri method u q u' q' w :
  URI_parse (getURI request) = Ok u -> getQueryParameters u = Ok q ->
  URI_parse uri = Ok u' -> getQueryParameters u' = Ok q' ->
  (getHost u <> getHost u' ->
   exists message,
     ExpectURI request uri w = (Throw CheckFailedException, failed message w) /\
     contains (getHost u') message = true /\ contains (getHost u) message = true) /\
  (getHost u = getHost u' -> getPath u <> getPath u' ->
   exists message,
     ExpectURI request uri w = (Throw CheckFailedException, failed message w) /\
     contains (getPath u') message = true /\ contains (getPath u) message = true) /\
  (getHost u = getHost u' -> getPath u = getPath u' -> ~ q ≡ₚ q' ->
   ExpectURI request uri w =
     (Throw CheckFailedException, failed "Invalid Query params" w)) /\
  (getMethod request <> method ->
   exists message,
     ExpectMethod request method w =
       (Throw CheckFailedException, failed message w) /\
     contains method message = true /\
     contains (getMethod request) message = true).
Proof.
  intros Hu Hq Hu' Hq'. rewrite (ExpectURI_run _ _ _ _ _ _ w Hu Hq Hu' Hq').
  rewrite ExpectMethod_run. repeat split.
  - intros Hh. rewrite decide_True by done. eexists. split; [done|]. split.
    + apply contains_here.
    + do 3 apply contains_append_l. apply contains_refl.
  - intros Hh Hp. rewrite decide_False by (by intros ?).
    rewrite decide_True by done. eexists. split; [done|]. split.
    + apply contains_here.
    + do 3 apply contains_append_l. apply contains_refl.
  - intros Hh Hp Hn. rewrite decide_False by (by intros ?).
    rewrite decide_False by (by intros ?). by rewrite decide_False.
  - intros Hm. rewrite decide_False by done. eexists. split; [done|]. split.
    + apply contains_here.
    + do 3 apply contains_append_l. apply contains_refl.
Qed.

Lemma mismatch_messages_witness :
  let request := mkRequest "POST" "/bot123/getUpdates?offset=1&timeout=5" []
                           (Raise "no body") in
  let uri := "/bot123/getUpdates?offset=851793508&timeout=5" in
  let w := mkWorld (new HandleOffset) fresh_response in
  let u := mkURI "" "" "/bot123/getUpdates" "offset=1&timeout=5" in
  let u' := mkURI "" "" "/bot123/getUpdates" "offset=851793508&timeout=5" in
  let q := [("offset", "1"); ("timeout", "5")] in
  let q' := [("offset", "851793508"); ("timeout", "5")] in
  (getHost u <> getHost u' ->
   exists message,
     ExpectURI request uri w = (Throw CheckFailedException, failed message w) /\
     contains (getHost u') message = true /\ contains (getHost u) message = true) /\
  (getHost u = getHost u' -> getPath u <> getPath u' ->
   exists message,
     ExpectURI request uri w = (Throw CheckFailedException, failed message w) /\
     contains (getPath u') message = true /\ contains (getPath u) message = true) /\
  (getHost u = getHost u' -> getPath u = getPath u' -> ~ q ≡ₚ q' ->
   ExpectURI request uri w =
     (Throw CheckFailedException, failed "Invalid Query params" w)) /\
  (getMethod request <> "GET" ->
   exists message,
     ExpectMethod request "GET" w =
       (Throw CheckFailedException, failed message w) /\
     contains "GET" message = true /\
     contains (getMethod request) message = true).
Proof.
  intros request uri w u u' q q'.
  apply (mismatch_messages request uri "GET" u q u' q' w); reflexivity.
Defined.

(** *** The failure list *)

Lemma checked_Fails_prefix {A} w (r : result A) w' :
  checked w (r, w') -> Fails (this w) `prefix_of` Fails (this w').
Proof. inversion 1; subst; [done| |done]. by apply prefix_app_r. Qed.

Lemma handled_Fails_prefix n w1 r w' :
  handled n w1 (r, w') -> Fails (this w1) `prefix_of` Fails (this w').
Proof. inversion 1; subst; [done| |done]. by apply prefix_app_r. Qed.

Lemma HandleRequest_Fails_prefix v request w :
  Fails (this w) `prefix_of` Fails (this (HandleRequest v request w).2).
Proof.
  destruct (HandleRequest_handled v request w) as (w1 & Hw1 & H).
  destruct (HandleRequest v request w) as [r w'].
  apply handled_Fails_prefix in H. by destruct Hw1 as [->| ->].
Qed.

Lemma handleRequest_Fails_prefix v request w :
  Fails (this w) `prefix_of` Fails (this (handleRequest v request w).2).
Proof.
  pose proof (HandleRequest_Fails_prefix v request w) as H.
  unfold handleRequest, try_catch.
  destruct (HandleRequest v request w) as [[[]|[|what]] w']; [done|done|].
  by apply prefix_app_r.
Qed.

(** C10: [Fail] appends exactly its message to the failure list and throws;
    the failure list before [ExpectURI], [ExpectMethod], [HandleRequest],
    the handler or any sequence of exchanges is a prefix of the list after
    it ([Check] has no access to the list but to read it); hence, once the
    list is not empty, [Check] throws after any further exchanges. *)
Theorem Fails_only_grows v request uri method message rs w tc :
  Fail message w = (Throw CheckFailedException, failed message w) /\
  Fails (this (failed message w)) = (Fails (this w) ++ [message])%list /\
  Fails (this w) `prefix_of` Fails (this (ExpectURI request uri w).2) /\
  Fails (this w) `prefix_of` Fails (this (ExpectMethod request method w).2) /\
  Fails (this w) `prefix_of` Fails (this (HandleRequest v request w).2) /\
  Fails (this w) `prefix_of` Fails (this (handleRequest v request w).2) /\
  Fails tc `prefix_of` Fails (serve_all v rs tc) /\
  (Fails tc <> [] -> raises (Check (serve_all v rs tc)) = true).
Proof.
  split; [done|]. split; [done|].
  split. { pose proof (is_check_ExpectURI request uri w) as H.
           destruct (ExpectURI request uri w). by apply checked_Fails_prefix in H. }
  split. { pose proof (is_check_ExpectMethod request method w) as H.
           destruct (ExpectMethod request method w). by apply checked_Fails_prefix in H. }
  split; [apply HandleRequest_Fails_prefix|].
  split; [apply handleRequest_Fails_prefix|].
  split; [apply serve_all_Fails_prefix|].
  intros NE. apply Check_raises_of_Fails.
  destruct (serve_all_Fails_prefix v rs tc) as [k ->].
  destruct (Fails tc); [done|]. done.
Qed.

Lemma Fails_only_grows_witness :
  raises (Check (serve_all SingleGetMe [get "/bot123/getMe"; get "/bot123/getMe"]
                   (mkTestCase (Expectations (new SingleGetMe)) 0 ["boom"]))) = true.
Proof.
  apply (Fails_only_grows SingleGetMe (get "/") "/" "GET" "boom"
           [get "/bot123/getMe"; get "/bot123/getMe"]
           (mkWorld (new SingleGetMe) fresh_response)
           (mkTestCase (Expectations (new SingleGetMe)) 0 ["boom"])).
  simpl. discriminate.
Defined.

(** * Further properties of the code *)

(** ** The answers of the scripts *)

Lemma plays_run v k (m : M unit) w1 :
  plays v k m -> Fulfilled (this w1) = k -> scripted v w1 (m w1).
Proof. intros H. apply H. Qed.

Lemma plays_reply v k status chunk :
  script v k = Some (status, chunk) ->
  plays v k (setStatus status;; send_body chunk).
Proof.
  intros Hs w1 Hk. apply (scripted_replied v w1 status chunk). by rewrite Hk.
Qed.

Lemma plays_bind_check {A} v k (m : M A) (f : A -> M unit) :
  is_check m -> (forall a, plays v k (f a)) -> plays v k (m ≫= f).
Proof.
  intros Hm Hf w1 Hk. rewrite bind_run.
  destruct (Hm w1) as [a|message|what].
  - by apply Hf.
  - apply scripted_failed.
  - apply scripted_threw.
Qed.

Create HintDb answers.
#[local] Hint Extern 1 (plays _ _ (setStatus _;; send_body _)) =>
  apply plays_reply; reflexivity : answers.
#[local] Hint Extern 2 (plays _ _ (_ ≫= _)) =>
  apply plays_bind_check; [auto with checks|intros] : answers.
#[local] Hint Extern 3 (plays _ _ (let '(_, _) := ?p in _)) => destruct p : answers.

(** The branch of a handler chosen by the counter is the step of the
    script, or the failure of a request after the last step. *)
Ltac script_branches v :=
  repeat case_decide; try apply scripted_failed;
  match goal with
  | H : Fulfilled (this ?w) = ?k |- scripted _ ?w _ =>
      apply (plays_run v k); [auto 20 with answers|exact H]
  | H : Fulfilled (this ?w) = _ \/ Fulfilled (this ?w) = _ |- scripted _ ?w _ =>
      destruct H as [H|H];
      match type of H with
      | _ = ?k => apply (plays_run v k); [auto 20 with answers|exact H]
      end
  end.

Lemma HandleOffset_scripted request w :
  scripted HandleOffset (counted w) (HandleOffsetTestCase.HandleRequest request w).
Proof.
  unfold HandleOffsetTestCase.HandleRequest. rewrite count_then_dispatch.
  generalize (counted w). intros w1. script_branches HandleOffset.
Qed.

Lemma GetUpdatesAndSendMessages_scripted request w :
  scripted GetUpdatesAndSendMessages (counted w)
           (GetUpdatesAndSendMessagesTestCase.HandleRequest request w).
Proof.
  unfold GetUpdatesAndSendMessagesTestCase.HandleRequest.
  rewrite count_then_dispatch.
  generalize (counted w). intros w1. script_branches GetUpdatesAndSendMessages.
Qed.

Lemma SingleGetMe_scripted request w :
  (accepts request "/bot123/getMe" "GET" /\
   scripted SingleGetMe (counted w) (SingleGetMeTestCase.HandleRequest request w)) \/
  (~ accepts request "/bot123/getMe" "GET" /\
   exists e w',
     SingleGetMeTestCase.HandleRequest request w = (Throw e, w') /\
     checked (A:=unit) w (Throw e, w')).
Proof.
  unfold SingleGetMeTestCase.HandleRequest.
  destruct (validation_prefix request "/bot123/getMe" "GET"
    (incr_Fulfilled;; Fulfilled ← get_Fulfilled;
     if decide (Fulfilled = 1) then setStatus HTTP_OK;; send_body (Fixture GetMeJson)
     else Fail "Unexpected extra request") w) as [[Ha ->]|[Hn Hr]].
  - left. split; [done|]. rewrite count_then_dispatch.
    generalize (counted w). intros w1. script_branches SingleGetMe.
  - right. by split.
Qed.

Lemma ErrorHandling_scripted request w :
  (accepts request "/bot123/getMe" "GET" /\
   scripted ErrorHandling (counted w)
            (ErrorHandlingTestCase.HandleRequest request w)) \/
  (~ accepts request "/bot123/getMe" "GET" /\
   exists e w',
     ErrorHandlingTestCase.HandleRequest request w = (Throw e, w') /\
     checked (A:=unit) w (Throw e, w')).
Proof.
  unfold ErrorHandlingTestCase.HandleRequest.
  destruct (validation_prefix request "/bot123/getMe" "GET"
    (incr_Fulfilled;; Fulfilled ← get_Fulfilled;
     if decide (Fulfilled = 1) then
       setStatus HTTP_INTERNAL_SERVER_ERROR;; send_body (Text "Internal server error")
     else if decide (Fulfilled = 2) then
       setStatus HTTP_UNAUTHORIZED;; send_body (Fixture GetMeErrorJson)
     else Fail "Unexpected extra request") w) as [[Ha ->]|[Hn Hr]].
  - left. split; [done|]. rewrite count_then_dispatch.
    generalize (counted w). intros w1. script_branches ErrorHandling.
  - right. by split.
Qed.

(** Every handler, on every request: either the request is counted and the
    handler ends as the script says, or (in the two handlers that check
    first) the request is rejected before it is counted. *)
Lemma HandleRequest_scripted v request w :
  ((counts_first v = true \/ accepts request "/bot123/getMe" "GET") /\
   scripted v (counted w) (HandleRequest v request w)) \/
  (counts_first v = false /\ ~ accepts request "/bot123/getMe" "GET" /\
   exists e w',
     HandleRequest v request w = (Throw e, w') /\
     checked (A:=unit) w (Throw e, w')).
Proof.
  destruct v; simpl.
  - destruct (SingleGetMe_scripted request w) as [[Ha H]|[Hn H]];
      [left; split; [by right|done]|by right].
  - destruct (ErrorHandling_scripted request w) as [[Ha H]|[Hn H]];
      [left; split; [by right|done]|by right].
  - left. split; [by left|]. apply GetUpdatesAndSendMessages_scripted.
  - left. split; [by left|]. apply HandleOffset_scripted.
Qed.

Lemma script_within v k status chunk :
  script v k = Some (status, chunk) -> 1 <= k <= steps v /\ status <> HTTP_BAD_REQUEST.
Proof.
  destruct v; unfold script, steps; simpl; repeat case_decide;
    intros [= <- <-]; (split; [lia|done]).
Qed.

(** ** The outcome of an exchange *)

(** An exchange, for every handler and request: the request is counted and
    the exchange ends in one of the three ways, or (in the two handlers
    that check first) it is rejected before it is counted. *)
Lemma serve_exchanged v request tc :
  let w := mkWorld tc fresh_response in
  ((counts_first v = true \/ accepts request "/bot123/getMe" "GET") /\
   exchanged v (counted w) (serve v request tc)) \/
  (counts_first v = false /\ ~ accepts request "/bot123/getMe" "GET" /\
   ((exists message,
       serve v request tc = (Return tt, recorded message bad_request w)) \/
    (exists what,
       serve v request tc =
         (Throw CheckFailedException, recorded what fresh_response w)))).
Proof.
  intros w. unfold serve. fold w.
  destruct (HandleRequest_scripted v request w)
    as [[Hv H]|(Hv & Hn & e & w' & Hr & H)].
  - left. split; [done|].
    inversion H as [status chunk Hs Heq|message Heq|what Heq]; symmetry in Heq.
    + rewrite (handleRequest_Return _ _ _ _ Heq). by apply exchanged_answered.
    + rewrite (handleRequest_CheckFailed _ _ _ _ Heq). apply exchanged_rejected.
    + rewrite (handleRequest_std_exception _ _ _ _ _ Heq). apply exchanged_aborted.
  - right. split; [done|]. split; [done|].
    inversion H as [|message Heq|what Heq]; subst.
    + left. exists message. by rewrite (handleRequest_CheckFailed _ _ _ _ Hr).
    + right. exists what. by rewrite (handleRequest_std_exception _ _ _ _ _ Hr).
Qed.

(** X2: every exchange ends in exactly one of three ways.  The request is
    counted, the new counter is within the script, the answer is the status
    (never 400) and the body that the script has for that counter, and
    nothing is recorded; or one failure is recorded and the answer is
    status 400 with no body; or one failure is recorded, nothing is sent
    and a [CheckFailedException] leaves the handler.  In the last two the
    request was counted or not.  No other exception leaves the handler, and
    the handler does not return without a response sent. *)
Theorem exchange_outcomes v request tc :
  let w := mkWorld tc fresh_response in
  (exists status chunk,
     script v (Fulfilled (this (counted w))) = Some (status, chunk) /\
     1 <= Fulfilled (this (counted w)) <= steps v /\
     status <> HTTP_BAD_REQUEST /\
     serve v request tc = (Return tt, replied status chunk (counted w))) \/
  (exists message w1,
     (w1 = w \/ w1 = counted w) /\
     serve v request tc = (Return tt, recorded message bad_request w1)) \/
  (exists what w1,
     (w1 = w \/ w1 = counted w) /\
     serve v request tc =
       (Throw CheckFailedException, recorded what fresh_response w1)).
Proof.
  intros w.
  destruct (serve_exchanged v request tc) as [[_ H]|(_ & _ & [[m H]|[m H]])];
    fold w in H.
  - inversion H as [status chunk Hs Heq|message Heq|what Heq].
    + left. exists status, chunk. split; [done|].
      by destruct (script_within _ _ _ _ Hs).
    + right. left. exists message, (counted w). split; [by right|done].
    + right. right. exists what, (counted w). split; [by right|done].
  - right. left. exists m, w. split; [by left|done].
  - right. right. exists m, w. split; [by left|done].
Qed.

(** ** What the counter counts *)

Lemma uri_matchesb_spec actual expected :
  uri_matchesb actual expected = true <-> uri_matches actual expected.
Proof.
  unfold uri_matchesb, uri_matches. split.
  - destruct (URI_parse actual) as [u|]; [|done].
    destruct (URI_parse expected) as [u'|]; [|done].
    destruct (getQueryParameters u) as [q|] eqn:Hq; [|done].
    destruct (getQueryParameters u') as [q'|] eqn:Hq'; [|done].
    rewrite !andb_true_iff, !bool_decide_eq_true. intros [[? ?] ?].
    exists u, q, u', q'. repeat split; done.
  - intros (u & q & u' & q' & -> & Hq & -> & Hq' & ? & ? & ?).
    rewrite Hq, Hq'. rewrite !andb_true_iff, !bool_decide_eq_true. done.
Qed.

Lemma acceptsb_spec request uri method :
  acceptsb request uri method = true <-> accepts request uri method.
Proof.
  unfold acceptsb, accepts.
  by rewrite andb_true_iff, uri_matchesb_spec, bool_decide_eq_true.
Qed.

Lemma exchanged_Fulfilled v w1 r w' :
  exchanged v w1 (r, w') -> Fulfilled (this w') = Fulfilled (this w1).
Proof. inversion 1; subst; done. Qed.

(** The counter after one exchange. *)
Lemma serve_counter v request tc :
  Fulfilled (this (serve v request tc).2) =
  if counts_first v || acceptsb request "/bot123/getMe" "GET"
  then int_wrap (Fulfilled tc + 1) else Fulfilled tc.
Proof.
  destruct (serve_exchanged v request tc) as [[Hv H]|(Hv & Hn & H)].
  - replace (counts_first v || acceptsb request "/bot123/getMe" "GET") with true.
    + destruct (serve v request tc) as [r w']. simpl.
      by rewrite (exchanged_Fulfilled _ _ _ _ H).
    + symmetry. apply orb_true_iff.
      destruct Hv as [?|Ha]; [by left|right]. by apply acceptsb_spec.
  - rewrite Hv. simpl.
    destruct (acceptsb request "/bot123/getMe" "GET") eqn:E.
    + by apply acceptsb_spec in E.
    + by destruct H as [[m ->]|[m ->]].
Qed.

(** The number of requests of [rs] that the handler of [v] counts. *)
Lemma serve_all_counter v rs :
  Z.of_nat (length rs) <= INT_MAX ->
  Fulfilled (serve_all v rs (new v)) =
  Z.of_nat (length (filter
    (fun r => counts_first v || acceptsb r "/bot123/getMe" "GET") rs)).
Proof.
  induction rs as [|request rs IH] using rev_ind; intros Hlen.
  - by destruct v.
  - rewrite length_app in Hlen. simpl in Hlen.
    rewrite serve_all_snoc, serve_counter, filter_app, length_app, IH by lia.
    pose proof (length_filter
      (fun r => counts_first v || acceptsb r "/bot123/getMe" "GET") rs) as Hle.
    rewrite filter_cons, filter_nil.
    destruct (counts_first v || acceptsb request "/bot123/getMe" "GET") eqn:E.
    + rewrite decide_True by done. simpl.
      rewrite int_wrap_small; unfold INT_MIN, INT_MAX in *; lia.
    + rewrite decide_False by (by intros ?). simpl. lia.
Qed.

(** X3: the handlers of "Single getUpdates and send messages" and "Handle
    getUpdates offset" count every request: after any requests (fewer than
    2^31), whatever they are and however they were answered, the counter is
    their number. *)
Theorem counter_counts_every_request v rs :
  counts_first v = true ->
  Z.of_nat (length rs) <= INT_MAX ->
  Fulfilled (serve_all v rs (new v)) = Z.of_nat (length rs).
Proof.
  intros Hv Hlen. rewrite serve_all_counter by done. rewrite Hv. simpl.
  f_equal. f_equal. induction rs as [|r rs IH]; [done|].
  rewrite filter_cons. rewrite decide_True by done. f_equal. apply IH.
  simpl in Hlen. lia.
Qed.

Lemma counter_counts_every_request_witness :
  Fulfilled (serve_all HandleOffset [post_getMe; get "%"; bad_json]
                       (new HandleOffset)) = 3.
Proof.
  apply (counter_counts_every_request HandleOffset [post_getMe; get "%"; bad_json]).
  - reflexivity.
  - unfold INT_MAX. simpl. lia.
Defined.

(** X4: the handlers of "Single getMe" and "getMe error handling" count
    the accepted requests only: after any requests (fewer than 2^31), the
    counter is the number of those that are a [GET] of [/bot123/getMe]
    without query parameters. *)
Theorem counter_counts_accepted_requests v rs :
  counts_first v = false ->
  Z.of_nat (length rs) <= INT_MAX ->
  Fulfilled (serve_all v rs (new v)) =
  Z.of_nat (length (filter (fun r => acceptsb r "/bot123/getMe" "GET") rs)).
Proof.
  intros Hv Hlen. rewrite serve_all_counter by done. by rewrite Hv.
Qed.

Lemma counter_counts_accepted_requests_witness :
  Fulfilled (serve_all ErrorHandling
               [post_getMe; get "/bot123/getMe"; get "/bot123/getMe?x=1"]
               (new ErrorHandling)) = 1.
Proof.
  apply (counter_counts_accepted_requests ErrorHandling
           [post_getMe; get "/bot123/getMe"; get "/bot123/getMe?x=1"]).
  - reflexivity.
  - unfold INT_MAX. simpl. lia.
Defined.

(** ** When [Check] passes *)

(** As long as nothing is recorded, every request was counted. *)
Lemma serve_all_counter_no_failure v rs :
  Fails (serve_all v rs (new v)) = [] ->
  Fulfilled (serve_all v rs (new v)) = Z.of_nat (length rs).
Proof.
  induction rs as [|request rs IH] using rev_ind.
  - by destruct v.
  - rewrite serve_all_snoc, length_app. simpl.
    pose proof (steps_small v) as Hs.
    pose proof (serve_all_within_script v rs (new v)) as Hb.
    destruct (serve_exchanged v request (serve_all v rs (new v)))
      as [[_ H]|(_ & _ & [[m ->]|[m ->]])].
    + inversion H as [status chunk Hsc Heq|message Heq|what Heq].
      * simpl. intros HF. rewrite IH by done.
        specialize (Hb ltac:(by destruct v) HF). rewrite IH in Hb by done.
        rewrite int_wrap_small by (unfold INT_MIN, INT_MAX; lia). lia.
      * simpl. intros HF. by apply app_nil in HF as [_ ?].
      * simpl. intros HF. by apply app_nil in HF as [_ ?].
    + simpl. intros HF. by apply app_nil in HF as [_ ?].
    + simpl. intros HF. by apply app_nil in HF as [_ ?].
Qed.

(** X5: after any requests served since the construction of the test case,
    [Check] returns if and only if no failure is recorded and the number of
    requests served is the number of expectations: fewer requests, more
    requests, or one request that was not answered from the script make it
    throw. *)
Theorem Check_passes_iff v rs :
  Check (serve_all v rs (new v)) = Ok tt <->
  Fails (serve_all v rs (new v)) = [] /\ Z.of_nat (length rs) = steps v.
Proof.
  pose proof (steps_small v) as Hs. split.
  - intros HC.
    assert (Fails (serve_all v rs (new v)) = []) as HF.
    { destruct (decide (Fails (serve_all v rs (new v)) = [])) as [|NE]; [done|].
      apply Check_raises_of_Fails in NE. by rewrite HC in NE. }
    split; [done|].
    pose proof (serve_all_counter_no_failure v rs HF) as Hc.
    assert (0 <= Fulfilled (serve_all v rs (new v)) <= steps v) as Hb.
    { apply serve_all_within_script; [|done]. intros _. destruct v; simpl; lia. }
    rewrite Check_run in HC by (unfold INT_MAX; lia).
    rewrite serve_all_Expectations in HC. fold (steps v) in HC.
    case_decide as Hd; [done|].
    destruct (decide (Fulfilled (serve_all v rs (new v)) < steps v)) as [Hlt|Hge].
    + destruct Hd. by left.
    + lia.
  - intros [HF Hlen].
    pose proof (serve_all_counter_no_failure v rs HF) as Hc.
    rewrite Check_run by (unfold INT_MAX; lia).
    rewrite serve_all_Expectations. fold (steps v).
    rewrite decide_False; [done|]. intros [Hlt|NE]; [lia|done].
Qed.

(** ** Requests after the last step *)

Lemma counted_beyond v tc :
  steps v <= Fulfilled tc < INT_MAX ->
  Fulfilled (this (counted (mkWorld tc fresh_response))) = Fulfilled tc + 1.
Proof.
  intros HF. pose proof (steps_small v). cbn [counted Fulfilled this].
  apply int_wrap_small. unfold INT_MIN, INT_MAX in *. lia.
Qed.

(** The last branch of a handler, in a world whose counter is beyond the
    script. *)
Ltac last_branch Hc :=
  rewrite count_then_dispatch, Hc;
  repeat (rewrite decide_False by (unfold steps in *; simpl in *; lia));
  reflexivity.

Lemma HandleRequest_beyond v request tc :
  steps v <= Fulfilled tc < INT_MAX ->
  counts_first v = true \/ accepts request "/bot123/getMe" "GET" ->
  HandleRequest v request (mkWorld tc fresh_response) =
  (Throw CheckFailedException,
   failed "Unexpected extra request" (counted (mkWorld tc fresh_response))).
Proof.
  intros HF Hv. pose proof (counted_beyond v tc HF) as Hc.
  destruct v; simpl.
  - destruct Hv as [?|Ha]; [done|]. unfold SingleGetMeTestCase.HandleRequest.
    destruct (validation_prefix request "/bot123/getMe" "GET"
      (incr_Fulfilled;; Fulfilled ← get_Fulfilled;
       if decide (Fulfilled = 1) then setStatus HTTP_OK;; send_body (Fixture GetMeJson)
       else Fail "Unexpected extra request") (mkWorld tc fresh_response))
      as [[_ ->]|[Hn _]]; [|done].
    last_branch Hc.
  - destruct Hv as [?|Ha]; [done|]. unfold ErrorHandlingTestCase.HandleRequest.
    destruct (validation_prefix request "/bot123/getMe" "GET"
      (incr_Fulfilled;; Fulfilled ← get_Fulfilled;
       if decide (Fulfilled = 1) then
         setStatus HTTP_INTERNAL_SERVER_ERROR;;
         send_body (Text "Internal server error")
       else if decide (Fulfilled = 2) then
         setStatus HTTP_UNAUTHORIZED;; send_body (Fixture GetMeErrorJson)
       else Fail "Unexpected extra request") (mkWorld tc fresh_response))
      as [[_ ->]|[Hn _]]; [|done].
    last_branch Hc.
  - unfold GetUpdatesAndSendMessagesTestCase.HandleRequest. last_branch Hc.
  - unfold HandleOffsetTestCase.HandleRequest. last_branch Hc.
Qed.

(** X6: once the counter has reached the number of steps, a further request
    is counted, recorded as "Unexpected extra request" and answered with
    status 400 and no body.  In "Single getUpdates and send messages" and
    "Handle getUpdates offset" this holds for every request, also one whose
    URI does not parse, as nothing of the request is read; in the other two
    test cases it holds for the requests that pass the URI and method
    check. *)
Theorem extra_request_fails v request tc :
  steps v <= Fulfilled tc < INT_MAX ->
  counts_first v = true \/ accepts request "/bot123/getMe" "GET" ->
  serve v request tc =
  (Return tt,
   mkWorld (mkTestCase (Expectations tc) (Fulfilled tc + 1)
                       (Fails tc ++ ["Unexpected extra request"]))
           bad_request).
Proof.
  intros HF Hv. unfold serve.
  rewrite (handleRequest_CheckFailed _ _ _ _ (HandleRequest_beyond v request tc HF Hv)).
  pose proof (counted_beyond v tc HF) as Hc. simpl in *. by rewrite Hc.
Qed.

Lemma extra_request_fails_witness :
  serve HandleOffset (get "%")
        (mkTestCase (Expectations (new HandleOffset)) 3 []) =
  (Return tt,
   mkWorld (mkTestCase (Expectations (new HandleOffset)) (3 + 1)
                       ([] ++ ["Unexpected extra request"]))
           bad_request).
Proof.
  apply (extra_request_fails HandleOffset (get "%")
           (mkTestCase (Expectations (new HandleOffset)) 3 [])).
  - unfold steps, INT_MAX. simpl. lia.
  - by left.
Defined.

(** ** The matcher *)

(** X7: [ExpectURI] returns exactly when both URIs parse, their hosts and
    paths are equal and their query parameters are the same pairs, each as
    many times, in any order; [ExpectMethod] returns exactly when the
    methods are the same string.  Neither changes the world when it
    returns, and neither ever changes the expectations, the counter or the
    response. *)
Theorem matcher_decides request uri method w :
  (ExpectURI request uri w = (Return tt, w) <-> uri_matches (getURI request) uri) /\
  (ExpectMethod request method w = (Return tt, w) <-> getMethod request = method) /\
  (forall m, m = ExpectURI request uri \/ m = ExpectMethod request method ->
     ((m w).1 = Return tt -> (m w).2 = w) /\
     Expectations (this (m w).2) = Expectations (this w) /\
     Fulfilled (this (m w).2) = Fulfilled (this w) /\
     response (m w).2 = response w).
Proof.
  split; [|split].
  - split; [apply ExpectURI_Return|apply ExpectURI_pass].
  - rewrite ExpectMethod_run. case_decide; split; done.
  - intros m Hm.
    assert (checked w (m w)) as Hc.
    { destruct Hm as [->| ->];
        [apply is_check_ExpectURI|apply is_check_ExpectMethod]. }
    destruct (m w) as [r w']. inversion Hc; subst; done.
Qed.

(** ** The steps that read a message *)

Lemma checkContentType_run request w :
  GetUpdatesAndSendMessagesTestCase.checkContentType request w =
  match NameValueCollection_get "Content-Type" (headers request) with
  | Ok content_type =>
      if decide (content_type = "application/json") then (Return tt, w)
      else (Throw CheckFailedException, failed "Content-Type header is not set" w)
  | Raise what => (Throw (std_exception what), w)
  end.
Proof.
  unfold GetUpdatesAndSendMessagesTestCase.checkContentType. rewrite bind_run.
  destruct (NameValueCollection_get "Content-Type" (headers request)) as [ct|what];
    [|done].
  cbn [call]. unfold when. case_decide.
  - rewrite bool_decide_eq_false_2; [done|]. by intros ?.
  - by rewrite bool_decide_eq_true_2.
Qed.

Lemma parseJson_reads request chatId text reply w :
  reads request chatId text reply ->
  GetUpdatesAndSendMessagesTestCase.parseJson request w =
  (Return (chatId, text, reply), w).
Proof.
  intros (message & Hs & Hc & Ht & Hr).
  unfold GetUpdatesAndSendMessagesTestCase.parseJson.
  rewrite bind_run, Hs. cbn [call]. rewrite bind_run, Hc. cbn [call].
  rewrite bind_run, Ht. cbn [call]. unfold Object_has, Object_get.
  destruct (message !! "reply_to_message_id") as [var|] eqn:E.
  - destruct Hr as (id & Hid & ->).
    rewrite bool_decide_eq_true_2 by (by eexists).
    rewrite bind_run. simpl. by rewrite Hid.
  - subst reply. rewrite bool_decide_eq_false_2; [done|]. by intros [? ?].
Qed.

Lemma no_header_get name request :
  no_header name request ->
  NameValueCollection_get name (headers request) = Raise NotFoundException.
Proof.
  unfold no_header. induction 1 as [|[n v] hs Hn _ IH]; [done|].
  simpl in *. by rewrite decide_False.
Qed.

(** The checks that the steps of [sendMessage] share, on a request that
    passes the URI and method check. *)
Lemma sendMessage_checks request (k : Z * string * option Z -> M unit) w :
  accepts request "/bot123/sendMessage" "POST" ->
  (ExpectURI request "/bot123/sendMessage";; ExpectMethod request "POST";;
   GetUpdatesAndSendMessagesTestCase.checkContentType request;;
   x ← GetUpdatesAndSendMessagesTestCase.parseJson request; k x) w =
  (GetUpdatesAndSendMessagesTestCase.checkContentType request;;
   x ← GetUpdatesAndSendMessagesTestCase.parseJson request; k x) w.
Proof.
  intros [Hu Hm]. rewrite bind_run, (ExpectURI_pass _ _ w Hu).
  by rewrite bind_run, (ExpectMethod_pass _ _ w Hm).
Qed.

(** The step of the script that the counter chooses. *)
Lemma sendMessage_dispatch request tc :
  1 <= Fulfilled tc <= 3 ->
  HandleRequest GetUpdatesAndSendMessages request (mkWorld tc fresh_response) =
  (ExpectURI request "/bot123/sendMessage";; ExpectMethod request "POST";;
   GetUpdatesAndSendMessagesTestCase.checkContentType request;;
   x ← GetUpdatesAndSendMessagesTestCase.parseJson request;
   if decide (Fulfilled tc = 1) then Hi_checks x else Reply_checks x)
    (counted (mkWorld tc fresh_response)).
Proof.
  intros HF.
  change (HandleRequest GetUpdatesAndSendMessages request ?w)
    with (GetUpdatesAndSendMessagesTestCase.HandleRequest request w).
  unfold GetUpdatesAndSendMessagesTestCase.HandleRequest.
  rewrite count_then_dispatch.
  assert (Fulfilled (this (counted (mkWorld tc fresh_response))) = Fulfilled tc + 1)
    as ->.
  { cbn [counted Fulfilled this]. apply int_wrap_small.
    unfold INT_MIN, INT_MAX. lia. }
  rewrite decide_False by lia.
  destruct (decide (Fulfilled tc = 1)) as [E|NE].
  - rewrite decide_True by lia. done.
  - rewrite decide_False by lia. rewrite decide_True by lia. done.
Qed.

(** A [sendMessage] request that passes the URI, method and header checks
    and whose message can be read: the exchange is the rest of the step. *)
Lemma sendMessage_read request tc chatId text reply :
  1 <= Fulfilled tc <= 3 ->
  accepts request "/bot123/sendMessage" "POST" ->
  NameValueCollection_get "Content-Type" (headers request) = Ok "application/json" ->
  reads request chatId text reply ->
  HandleRequest GetUpdatesAndSendMessages request (mkWorld tc fresh_response) =
  (if decide (Fulfilled tc = 1) then Hi_checks (chatId, text, reply)
   else Reply_checks (chatId, text, reply))
    (counted (mkWorld tc fresh_response)).
Proof.
  intros HF Ha Hct Hr. rewrite sendMessage_dispatch by done.
  rewrite sendMessage_checks by done.
  rewrite bind_run, checkContentType_run, Hct. rewrite decide_True by done.
  by rewrite bind_run, (parseJson_reads _ _ _ _ _ Hr).
Qed.

Lemma when_Fail_run (b : bool) message (k : M unit) w :
  (when b (Fail message);; k) w =
  if b then (Throw CheckFailedException, failed message w) else k w.
Proof. by destruct b. Qed.

(** X8: the step for the message "Hi!" (served at counter 1), on a [POST]
    of [/bot123/sendMessage] with the header [Content-Type:
    application/json] and a body from which chat, text and optional reply
    id are read: a text other than "Hi!" is recorded as "Invalid text in
    message #1", whatever the chat; otherwise a chat other than 104519755
    is recorded as "Invalid chat_id in message #1"; otherwise the answer is
    status 200 with the fixture [SendMessageHiJson].  The reply id plays no
    part.  A recorded failure is answered with status 400 and no body. *)
Theorem sendMessage_Hi_step request tc chatId text reply :
  Fulfilled tc = 1 ->
  accepts request "/bot123/sendMessage" "POST" ->
  NameValueCollection_get "Content-Type" (headers request) = Ok "application/json" ->
  reads request chatId text reply ->
  let w1 := counted (mkWorld tc fresh_response) in
  serve GetUpdatesAndSendMessages request tc =
  if decide (text <> "Hi!") then
    (Return tt, recorded "Invalid text in message #1" bad_request w1)
  else if decide (chatId <> 104519755) then
    (Return tt, recorded "Invalid chat_id in message #1" bad_request w1)
  else (Return tt, replied HTTP_OK (Fixture SendMessageHiJson) w1).
Proof.
  intros HF Ha Hct Hr w1.
  pose proof (sendMessage_read request tc chatId text reply
                ltac:(lia) Ha Hct Hr) as Hrun.
  fold w1 in Hrun. rewrite decide_True in Hrun by done.
  unfold Hi_checks in Hrun. rewrite when_Fail_run in Hrun.
  unfold serve. destruct (decide (text <> "Hi!")) as [Ht|Ht].
  { rewrite bool_decide_eq_true_2 in Hrun by done.
    by rewrite (handleRequest_CheckFailed _ _ _ _ Hrun). }
  rewrite bool_decide_eq_false_2 in Hrun by done.
  rewrite when_Fail_run in Hrun.
  destruct (decide (chatId <> 104519755)) as [Hc|Hc].
  { rewrite bool_decide_eq_true_2 in Hrun by done.
    by rewrite (handleRequest_CheckFailed _ _ _ _ Hrun). }
  rewrite bool_decide_eq_false_2 in Hrun by done.
  by rewrite (handleRequest_Return _ _ _ _ Hrun).
Qed.

Lemma sendMessage_Hi_step_witness :
  serve GetUpdatesAndSendMessages (sendMessage 104519755 "Hi!" (Some 7))
        after_getUpdates =
  (Return tt,
   replied HTTP_OK (Fixture SendMessageHiJson)
           (counted (mkWorld after_getUpdates fresh_response))).
Proof.
  apply (sendMessage_Hi_step (sendMessage 104519755 "Hi!" (Some 7))
           after_getUpdates 104519755 "Hi!" (Some 7)).
  - reflexivity.
  - apply acceptsb_spec. reflexivity.
  - reflexivity.
  - eexists. split; [reflexivity|]. split; [reflexivity|]. split; [reflexivity|].
    simpl. by exists 7.
Defined.

(** X9: the steps for the replies (served at counters 2 and 3), on a
    request as for the step before: a text other than "Reply" is recorded
    as "Invalid text in reply message"; otherwise a chat other than
    104519755 as "Invalid chat id in reply message"; otherwise a reply id
    that is absent or other than 2 as "reply_to_message_id field is
    incorrect"; otherwise the answer is status 200 with the fixture
    [SendMessageReplyJson]. *)
Theorem sendMessage_Reply_step request tc chatId text reply :
  Fulfilled tc = 2 \/ Fulfilled tc = 3 ->
  accepts request "/bot123/sendMessage" "POST" ->
  NameValueCollection_get "Content-Type" (headers request) = Ok "application/json" ->
  reads request chatId text reply ->
  let w1 := counted (mkWorld tc fresh_response) in
  serve GetUpdatesAndSendMessages request tc =
  if decide (text <> "Reply") then
    (Return tt, recorded "Invalid text in reply message" bad_request w1)
  else if decide (chatId <> 104519755) then
    (Return tt, recorded "Invalid chat id in reply message" bad_request w1)
  else if decide (reply <> Some 2) then
    (Return tt, recorded "reply_to_message_id field is incorrect" bad_request w1)
  else (Return tt, replied HTTP_OK (Fixture SendMessageReplyJson) w1).
Proof.
  intros HF Ha Hct Hr w1.
  pose proof (sendMessage_read request tc chatId text reply
                ltac:(lia) Ha Hct Hr) as Hrun.
  fold w1 in Hrun. rewrite decide_False in Hrun by lia.
  unfold Reply_checks in Hrun. rewrite when_Fail_run in Hrun.
  unfold serve. destruct (decide (text <> "Reply")) as [Ht|Ht].
  { rewrite bool_decide_eq_true_2 in Hrun by done.
    by rewrite (handleRequest_CheckFailed _ _ _ _ Hrun). }
  rewrite bool_decide_eq_false_2 in Hrun by done.
  rewrite when_Fail_run in Hrun.
  destruct (decide (chatId <> 104519755)) as [Hc|Hc].
  { rewrite bool_decide_eq_true_2 in Hrun by done.
    by rewrite (handleRequest_CheckFailed _ _ _ _ Hrun). }
  rewrite bool_decide_eq_false_2 in Hrun by done.
  rewrite when_Fail_run in Hrun.
  destruct (decide (reply <> Some 2)) as [Hi|Hi].
  { rewrite bool_decide_eq_true_2 in Hrun by done.
    by rewrite (handleRequest_CheckFailed _ _ _ _ Hrun). }
  rewrite bool_decide_eq_false_2 in Hrun by done.
  by rewrite (handleRequest_Return _ _ _ _ Hrun).
Qed.

Lemma sendMessage_Reply_step_witness :
  serve GetUpdatesAndSendMessages (sendMessage 104519755 "Reply" None)
        (mkTestCase (Expectations (new GetUpdatesAndSendMessages)) 2 []) =
  (Return tt,
   recorded "reply_to_message_id field is incorrect" bad_request
     (counted (mkWorld (mkTestCase (Expectations (new GetUpdatesAndSendMessages)) 2 [])
                       fresh_response))).
Proof.
  apply (sendMessage_Reply_step (sendMessage 104519755 "Reply" None)
           (mkTestCase (Expectations (new GetUpdatesAndSendMessages)) 2 [])
           104519755 "Reply" None).
  - by left.
  - apply acceptsb_spec. reflexivity.
  - reflexivity.
  - eexists. split; [reflexivity|]. split; [reflexivity|]. split; reflexivity.
Defined.

(** X10: in the three [sendMessage] steps the header is checked before the
    body is read: a request that passes the URI and method check with a
    [Content-Type] header whose value is not exactly [application/json] is
    recorded as "Content-Type header is not set" and answered with status
    400, whatever its body is, also one that is no JSON. *)
Theorem Content_Type_checked_before_body request tc content_type :
  1 <= Fulfilled tc <= 3 ->
  accepts request "/bot123/sendMessage" "POST" ->
  NameValueCollection_get "Content-Type" (headers request) = Ok content_type ->
  content_type <> "application/json" ->
  serve GetUpdatesAndSendMessages request tc =
  (Return tt,
   recorded "Content-Type header is not set" bad_request
            (counted (mkWorld tc fresh_response))).
Proof.
  intros HF Ha Hct Hne. unfold serve.
  assert (HandleRequest GetUpdatesAndSendMessages request
            (mkWorld tc fresh_response) =
          (Throw CheckFailedException,
           failed "Content-Type header is not set"
                  (counted (mkWorld tc fresh_response)))) as Hrun.
  { rewrite sendMessage_dispatch by done. rewrite sendMessage_checks by done.
    rewrite bind_run, checkContentType_run, Hct. by rewrite decide_False. }
  by rewrite (handleRequest_CheckFailed _ _ _ _ Hrun).
Qed.

Lemma Content_Type_checked_before_body_witness :
  serve GetUpdatesAndSendMessages
        (mkRequest "POST" "/bot123/sendMessage"
                   [("content-type", "application/json; charset=utf-8")]
                   (Raise "JSON Exception"))
        after_getUpdates =
  (Return tt,
   recorded "Content-Type header is not set" bad_request
            (counted (mkWorld after_getUpdates fresh_response))).
Proof.
  apply (Content_Type_checked_before_body _ after_getUpdates
           "application/json; charset=utf-8").
  - simpl. lia.
  - apply acceptsb_spec. reflexivity.
  - reflexivity.
  - discriminate.
Defined.

(** X11: a [sendMessage] request without any [Content-Type] header is not
    recorded as "Content-Type header is not set": the lookup of the header
    throws, so that the text of that exception is recorded, nothing is
    sent, and an exception leaves the handler. *)
Theorem missing_Content_Type_throws request tc :
  1 <= Fulfilled tc <= 3 ->
  accepts request "/bot123/sendMessage" "POST" ->
  no_header "Content-Type" request ->
  serve GetUpdatesAndSendMessages request tc =
  (Throw CheckFailedException,
   recorded NotFoundException fresh_response (counted (mkWorld tc fresh_response))).
Proof.
  intros HF Ha Hno. unfold serve.
  assert (HandleRequest GetUpdatesAndSendMessages request
            (mkWorld tc fresh_response) =
          (Throw (std_exception NotFoundException),
           counted (mkWorld tc fresh_response))) as Hrun.
  { rewrite sendMessage_dispatch by done. rewrite sendMessage_checks by done.
    by rewrite bind_run, checkContentType_run, (no_header_get _ _ Hno). }
  by rewrite (handleRequest_std_exception _ _ _ _ _ Hrun).
Qed.

Lemma missing_Content_Type_throws_witness :
  serve GetUpdatesAndSendMessages
        (mkRequest "POST" "/bot123/sendMessage" [("Accept", "*/*")] (Raise "no body"))
        after_getUpdates =
  (Throw CheckFailedException,
   recorded NotFoundException fresh_response
            (counted (mkWorld after_getUpdates fresh_response))).
Proof.
  apply (missing_Content_Type_throws _ after_getUpdates).
  - simpl. lia.
  - apply acceptsb_spec. reflexivity.
  - repeat constructor. discriminate.
Defined.

(** X12: a [sendMessage] request that passes the URI, method and header
    checks and whose body is a JSON object without the key [chat_id], or
    with a chat id but without the key [text], is not recorded as an
    invalid message: reading the absent value throws, so that the text of
    that exception is recorded, nothing is sent, and an exception leaves
    the handler. *)
Theorem missing_field_throws request tc (message : Object) :
  1 <= Fulfilled tc <= 3 ->
  accepts request "/bot123/sendMessage" "POST" ->
  NameValueCollection_get "Content-Type" (headers request) = Ok "application/json" ->
  stream request = Ok message ->
  message !! "chat_id" = None \/
  (exists chatId, convert_int64 (Object_get message "chat_id") = Ok chatId) /\
  message !! "text" = None ->
  serve GetUpdatesAndSendMessages request tc =
  (Throw CheckFailedException,
   recorded "Invalid access" fresh_response (counted (mkWorld tc fresh_response))).
Proof.
  intros HF Ha Hct Hs Hm. unfold serve.
  assert (HandleRequest GetUpdatesAndSendMessages request
            (mkWorld tc fresh_response) =
          (Throw (std_exception "Invalid access"),
           counted (mkWorld tc fresh_response))) as Hrun.
  { rewrite sendMessage_dispatch by done. rewrite sendMessage_checks by done.
    rewrite bind_run, checkContentType_run, Hct. rewrite decide_True by done.
    rewrite bind_run. unfold GetUpdatesAndSendMessagesTestCase.parseJson.
    rewrite bind_run, Hs. cbn [call]. rewrite bind_run.
    destruct Hm as [Hc|[[chatId Hc] Ht]].
    - unfold Object_get at 1. by rewrite Hc.
    - rewrite Hc. cbn [call]. rewrite bind_run.
      unfold Object_get at 1. by rewrite Ht. }
  by rewrite (handleRequest_std_exception _ _ _ _ _ Hrun).
Qed.

Lemma missing_field_throws_witness :
  let request :=
    mkRequest "POST" "/bot123/sendMessage" [("Content-Type", "application/json")]
              (Ok (<["text" := Var_string "Hi!"]> ∅)) in
  serve GetUpdatesAndSendMessages request after_getUpdates =
  (Throw CheckFailedException,
   recorded "Invalid access" fresh_response
            (counted (mkWorld after_getUpdates fresh_response))).
Proof.
  intros request.
  apply (missing_field_throws request after_getUpdates
           (<["text" := Var_string "Hi!"]> ∅)).
  - simpl. lia.
  - apply acceptsb_spec. reflexivity.
  - reflexivity.
  - reflexivity.
  - left. reflexivity.
Defined.

(** ** The scripts of "getMe error handling" and of "Single getUpdates and
    send messages" *)

Lemma ErrorHandling_accepted request tc :
  accepts request "/bot123/getMe" "GET" ->
  0 <= Fulfilled tc <= 1 ->
  serve ErrorHandling request tc =
  (Return tt,
   mkWorld (mkTestCase (Expectations tc) (Fulfilled tc + 1) (Fails tc))
     (if decide (Fulfilled tc = 0) then
        mkResponse HTTP_INTERNAL_SERVER_ERROR true [Text "Internal server error"]
      else mkResponse HTTP_UNAUTHORIZED true [Fixture GetMeErrorJson])).
Proof.
  intros Ha HF. unfold serve. apply handleRequest_Return.
  change (HandleRequest ErrorHandling request ?w)
    with (ErrorHandlingTestCase.HandleRequest request w).
  unfold ErrorHandlingTestCase.HandleRequest.
  destruct (validation_prefix request "/bot123/getMe" "GET"
    (incr_Fulfilled;; Fulfilled ← get_Fulfilled;
     if decide (Fulfilled = 1) then
       setStatus HTTP_INTERNAL_SERVER_ERROR;; send_body (Text "Internal server error")
     else if decide (Fulfilled = 2) then
       setStatus HTTP_UNAUTHORIZED;; send_body (Fixture GetMeErrorJson)
     else Fail "Unexpected extra request") (mkWorld tc fresh_response))
    as [[_ ->]|[Hn _]]; [|done].
  rewrite count_then_dispatch.
  assert (int_wrap (Fulfilled tc + 1) = Fulfilled tc + 1) as Hw.
  { apply int_wrap_small. unfold INT_MIN, INT_MAX. lia. }
  cbn [counted Fulfilled this Expectations Fails response]. rewrite Hw.
  assert (counted (mkWorld tc fresh_response) =
          mkWorld (mkTestCase (Expectations tc) (Fulfilled tc + 1) (Fails tc))
                  fresh_response) as ->.
  { unfold counted. cbn [Fulfilled this Expectations Fails response]. by rewrite Hw. }
  destruct (decide (Fulfilled tc = 0)) as [E|NE].
  - rewrite decide_True by lia. done.
  - rewrite decide_False by lia. rewrite decide_True by lia. done.
Qed.

(** X13: the script of "getMe error handling".  A [GET] of [/bot123/getMe]
    served at counter 0 is answered with status 500 and the text "Internal
    server error", and one served at counter 1 with status 401 and the
    fixture [GetMeErrorJson]; both move the counter by one and record
    nothing.  Any other request, at any counter, leaves the counter as it
    was, has one failure recorded and gets no body.  After two accepted
    requests on the new test case, [Check] returns. *)
Theorem ErrorHandling_script :
  (forall request tc,
     accepts request "/bot123/getMe" "GET" -> 0 <= Fulfilled tc <= 1 ->
     serve ErrorHandling request tc =
     (Return tt,
      mkWorld (mkTestCase (Expectations tc) (Fulfilled tc + 1) (Fails tc))
        (if decide (Fulfilled tc = 0) then
           mkResponse HTTP_INTERNAL_SERVER_ERROR true [Text "Internal server error"]
         else mkResponse HTTP_UNAUTHORIZED true [Fixture GetMeErrorJson]))) /\
  (forall request tc,
     ~ accepts request "/bot123/getMe" "GET" ->
     Fulfilled (this (serve ErrorHandling request tc).2) = Fulfilled tc /\
     body (response (serve ErrorHandling request tc).2) = [] /\
     exists message,
       Fails (this (serve ErrorHandling request tc).2) =
       (Fails tc ++ [message])%list) /\
  (forall r1 r2,
     accepts r1 "/bot123/getMe" "GET" -> accepts r2 "/bot123/getMe" "GET" ->
     Check (serve_all ErrorHandling [r1; r2] (new ErrorHandling)) = Ok tt).
Proof.
  split; [exact ErrorHandling_accepted|]. split.
  - intros request tc Hn.
    destruct (serve_exchanged ErrorHandling request tc)
      as [[[?|Ha] _]|(_ & _ & [[m ->]|[m ->]])]; [done|done| |].
    + split; [done|]. split; [done|]. by exists m.
    + split; [done|]. split; [done|]. by exists m.
  - intros r1 r2 H1 H2. unfold serve_all. cbn [foldl].
    rewrite (ErrorHandling_accepted r1 _ H1) by (simpl; lia). cbn [snd this].
    rewrite (ErrorHandling_accepted r2 _ H2) by (simpl; lia). reflexivity.
Qed.

Lemma ErrorHandling_script_witness :
  Check (serve_all ErrorHandling [get "/bot123/getMe"; get "/bot123/getMe"]
                   (new ErrorHandling)) = Ok tt.
Proof.
  apply (proj2 (proj2 ErrorHandling_script)); apply acceptsb_spec; reflexivity.
Defined.

Lemma counted_small tc :
  0 <= Fulfilled tc <= 3 ->
  counted (mkWorld tc fresh_response) =
  mkWorld (mkTestCase (Expectations tc) (Fulfilled tc + 1) (Fails tc))
          fresh_response.
Proof.
  intros HF. unfold counted. cbn [Fulfilled this Expectations Fails response].
  rewrite int_wrap_small; [done|]. unfold INT_MIN, INT_MAX. lia.
Qed.

Lemma getUpdates_step request tc :
  accepts request "/bot123/getUpdates" "GET" ->
  Fulfilled tc = 0 ->
  serve GetUpdatesAndSendMessages request tc =
  (Return tt,
   mkWorld (mkTestCase (Expectations tc) (Fulfilled tc + 1) (Fails tc))
           (mkResponse HTTP_OK true [Fixture GetUpdatesFourMessagesJson])).
Proof.
  intros Ha HF. unfold serve. apply handleRequest_Return.
  change (HandleRequest GetUpdatesAndSendMessages request ?w)
    with (GetUpdatesAndSendMessagesTestCase.HandleRequest request w).
  unfold GetUpdatesAndSendMessagesTestCase.HandleRequest.
  rewrite count_then_dispatch, counted_small by lia.
  cbn [Fulfilled this]. rewrite decide_True by lia.
  by destruct (validation_prefix request "/bot123/getUpdates" "GET"
    (setStatus HTTP_OK;; send_body (Fixture GetUpdatesFourMessagesJson))
    (mkWorld (mkTestCase (Expectations tc) (Fulfilled tc + 1) (Fails tc))
             fresh_response)) as [[_ ->]|[Hn _]].
Qed.

(** A [sendMessage] request as the script wants it, served at its step. *)
Lemma sends_served request tc text reply :
  sends request text reply ->
  (Fulfilled tc = 1 /\ text = "Hi!") \/
  ((Fulfilled tc = 2 \/ Fulfilled tc = 3) /\ text = "Reply" /\ reply = Some 2) ->
  serve GetUpdatesAndSendMessages request tc =
  (Return tt,
   mkWorld (mkTestCase (Expectations tc) (Fulfilled tc + 1) (Fails tc))
           (mkResponse HTTP_OK true
              [Fixture (if decide (Fulfilled tc = 1) then SendMessageHiJson
                        else SendMessageReplyJson)])).
Proof.
  intros (Ha & Hct & Hr) Hstep. unfold serve. apply handleRequest_Return.
  rewrite (sendMessage_read request tc 104519755 text reply) by (done || lia).
  rewrite counted_small by lia.
  destruct Hstep as [[HF ->]|(HF & -> & ->)].
  - rewrite !decide_True by done. reflexivity.
  - rewrite !decide_False by lia. reflexivity.
Qed.

(** X14: the script of "Single getUpdates and send messages", followed to
    the end.  A [GET] of [/bot123/getUpdates], then a message "Hi!" to the
    chat 104519755 with any reply id or none, then two messages "Reply" to
    that chat with the reply id 2, each a [POST] of [/bot123/sendMessage]
    with the header [Content-Type: application/json]: the four are counted,
    nothing is recorded, and [Check] returns. *)
Theorem GetUpdatesAndSendMessages_script r1 r2 r3 r4 reply :
  accepts r1 "/bot123/getUpdates" "GET" ->
  sends r2 "Hi!" reply ->
  sends r3 "Reply" (Some 2) ->
  sends r4 "Reply" (Some 2) ->
  serve_all GetUpdatesAndSendMessages [r1; r2; r3; r4]
            (new GetUpdatesAndSendMessages) =
    mkTestCase (Expectations (new GetUpdatesAndSendMessages)) 4 [] /\
  Check (serve_all GetUpdatesAndSendMessages [r1; r2; r3; r4]
                   (new GetUpdatesAndSendMessages)) = Ok tt.
Proof.
  intros H1 H2 H3 H4.
  assert (serve_all GetUpdatesAndSendMessages [r1; r2; r3; r4]
            (new GetUpdatesAndSendMessages) =
          mkTestCase (Expectations (new GetUpdatesAndSendMessages)) 4 []) as ->.
  { unfold serve_all. cbn [foldl].
    rewrite (getUpdates_step r1 _ H1) by done.
    cbn [snd this Expectations Fulfilled Fails new
         GetUpdatesAndSendMessagesTestCase.new].
    rewrite (sends_served r2 _ _ _ H2) by (left; done).
    cbn [snd this Expectations Fulfilled Fails].
    rewrite (sends_served r3 _ _ _ H3) by (right; split; [by left|done]).
    cbn [snd this Expectations Fulfilled Fails].
    rewrite (sends_served r4 _ _ _ H4) by (right; split; [by right|done]).
    reflexivity. }
  split; reflexivity.
Qed.

Lemma GetUpdatesAndSendMessages_script_witness :
  serve_all GetUpdatesAndSendMessages
            [get "/bot123/getUpdates"; sendMessage 104519755 "Hi!" None;
             sendMessage 104519755 "Reply" (Some 2);
             sendMessage 104519755 "Reply" (Some 2)]
            (new GetUpdatesAndSendMessages) =
    mkTestCase (Expectations (new GetUpdatesAndSendMessages)) 4 [] /\
  Check (serve_all GetUpdatesAndSendMessages
           [get "/bot123/getUpdates"; sendMessage 104519755 "Hi!" None;
            sendMessage 104519755 "Reply" (Some 2);
            sendMessage 104519755 "Reply" (Some 2)]
           (new GetUpdatesAndSendMessages)) = Ok tt.
Proof.
  apply (GetUpdatesAndSendMessages_script _ _ _ _ None).
  - apply acceptsb_spec. reflexivity.
  - split; [apply acceptsb_spec; reflexivity|]. split; [reflexivity|].
    eexists. repeat split; reflexivity.
  - split; [apply acceptsb_spec; reflexivity|]. split; [reflexivity|].
    eexists. split; [reflexivity|]. split; [reflexivity|]. split; [reflexivity|].
    simpl. by exists 2.
  - split; [apply acceptsb_spec; reflexivity|]. split; [reflexivity|].
    eexists. split; [reflexivity|]. split; [reflexivity|]. split; [reflexivity|].
    simpl. by exists 2.
Defined.

(** ** The server *)

(** X1: the constructor of [FakeServer] knows exactly four names, each the
    name of one test case, which it returns newly constructed; for any
    other string, also one that differs in case only, it throws a
    [std::runtime_error] whose text is "Unknown test case name " followed
    by the string. *)
Theorem FakeServer_resolves testCase :
  (forall v tc,
     FakeServer testCase = Ok (v, tc) <-> testCase = name_of v /\ tc = new v) /\
  (FakeServer testCase = Raise ("Unknown test case name " +:+ testCase) <->
   forall v, testCase <> name_of v).
Proof.
  split.
  - intros v tc. split.
    + unfold FakeServer. repeat case_decide; intros [= <- <-]; by subst.
    + intros [-> ->]. by destruct v.
  - split.
    + intros H v ->. by destruct v.
    + intros H. unfold FakeServer.
      rewrite decide_False by apply (H SingleGetMe).
      rewrite decide_False by apply (H ErrorHandling).
      rewrite decide_False by apply (H GetUpdatesAndSendMessages).
      by rewrite decide_False by apply (H HandleOffset).
Qed.

(** X15: a server that is stopped before the script is over, after
    requests that were all answered from the script, fails the check: the
    report that [StopAndCheckExpectations] throws is, for each expectation
    that no request has reached, in the order of the script, the line
    "Expectation not satisfied: " followed by the description of the
    expectation and a line feed, and nothing else.  In particular a server
    that got no request names every expectation. *)
Theorem unfinished_script_report testCase v tc rs :
  FakeServer testCase = Ok (v, tc) ->
  Fails (serve_all v rs tc) = [] ->
  Z.of_nat (length rs) < steps v ->
  let line_feed := String (ascii_of_nat 10) EmptyString in
  StopAndCheckExpectations (v, serve_all v rs tc) =
  Raise (concat_lines
           ((fun description =>
               "Expectation not satisfied: " +:+ description +:+ line_feed) <$>
              drop (length rs) (Expectations tc))).
Proof.
  intros Hsrv HF Hlen line_feed.
  assert (tc = new v) as ->.
  { revert Hsrv. unfold FakeServer. repeat case_decide; intros [= <- <-]; done. }
  pose proof (steps_small v) as Hs.
  pose proof (serve_all_counter_no_failure v rs HF) as Hc.
  unfold StopAndCheckExpectations. cbn [snd].
  rewrite Check_run by (unfold INT_MAX; lia).
  rewrite serve_all_Expectations. fold (steps v).
  rewrite decide_True by (left; lia).
  unfold report. rewrite serve_all_Expectations, HF, Hc, Nat2Z.id.
  by rewrite fmap_nil, app_nil_r.
Qed.

(** "Handle getUpdates offset", stopped after the first of its three
    requests: the report is the lines of the second and of the third
    expectation. *)
Lemma unfinished_script_report_witness :
  let line_feed := String (ascii_of_nat 10) EmptyString in
  StopAndCheckExpectations
    (HandleOffset,
     serve_all HandleOffset [get "/bot123/getUpdates?timeout=5"] (new HandleOffset)) =
  Raise ("Expectation not satisfied: " +:+
         "Client sends request with correct offset and receives 0 messages" +:+
         line_feed +:+
         "Expectation not satisfied: " +:+
         "Client sends request with current offset and receives 1 message" +:+
         line_feed).
Proof.
  intros line_feed.
  apply (unfinished_script_report "Handle getUpdates offset" HandleOffset
           (new HandleOffset) [get "/bot123/getUpdates?timeout=5"]).
  - reflexivity.
  - reflexivity.
  - unfold steps. simpl. lia.
Defined.

(** ** What no handler does *)

Lemma handled_Expectations n w1 r w' :
  handled n w1 (r, w') -> Expectations (this w') = Expectations (this w1).
Proof. inversion 1; subst; done. Qed.

(** X16: the list of expectations is never written after the construction
    of the test case: [HandleRequest] of every test case, the handler, and
    any sequence of exchanges leave it as it was, whatever the requests and
    however they end. *)
Theorem Expectations_never_change v request rs w tc :
  Expectations (this (HandleRequest v request w).2) = Expectations (this w) /\
  Expectations (this (handleRequest v request w).2) = Expectations (this w) /\
  Expectations (serve_all v rs tc) = Expectations tc.
Proof.
  assert (Expectations (this (HandleRequest v request w).2) =
          Expectations (this w)) as H.
  { destruct (HandleRequest_handled v request w) as (w1 & Hw1 & Hh).
    destruct (HandleRequest v request w) as [r w'].
    apply handled_Expectations in Hh. by destruct Hw1 as [->| ->]. }
  split; [done|]. split; [|apply serve_all_Expectations].
  unfold handleRequest, try_catch.
  by destruct (HandleRequest v request w) as [[[]|[|what]] w'].
Qed.
